(** * cuchem dataset loaders and the chemportal pipeline manager

    A shallow embedding of
    - [cuchem/datasets/molecules_properties.py]: [GenericCSVDataset] and
      its six subclasses;
    - [cuchemportal/pipeline/pipeline_manager.py]: [PipelineManager].

    Python objects become records, attribute assignment becomes record
    update, exceptions become the [Raise] constructor of [result].  The
    dataframe library (cudf) and the database client are external to the
    two source files; the fragment of their behaviour the loaders and the
    manager rely on is modelled in [Module DF] and by the [DBClient]
    interface. *)

From Stdlib Require Import String Ascii.
From Stdlib Require Import ZArith Bool Arith Lia List.
From Stdlib Require Import Sorting.Sorted Sorting.Permutation.
From Stdlib Require OrderedTypeEx.
Import ListNotations.
Local Open Scope string_scope.
Local Open Scope list_scope.

(** ** Cell values and Python exceptions *)

(** A CSV cell as the dataframe holds it.  Numeric cells are integers
    here; [VNull] is a missing value, and doubles as NaN where a
    reduction has nothing to reduce. *)
Inductive value : Type :=
| VInt (z : Z)
| VStr (s : string)
| VNull.

Inductive exn : Type :=
| KeyError (label : value)
| ValueError (msg : string)
| TypeError (msg : string)
| IndexError
| FileNotFoundError (path : string)
| AssertionError.

Inductive result (A : Type) : Type :=
| Ok (a : A)
| Raise (e : exn).
Arguments Ok {A} a.
Arguments Raise {A} e.

Definition rbind {A B} (r : result A) (k : A -> result B) : result B :=
  match r with
  | Ok a => k a
  | Raise e => Raise e
  end.

Definition value_eqb (a b : value) : bool :=
  match a, b with
  | VInt x, VInt y => Z.eqb x y
  | VStr s, VStr t => String.eqb s t
  | VNull, VNull => true
  | _, _ => false
  end.

(** Ascending order of labels and cells: integers by value, strings
    lexicographically, missing values last ([na_position='last']).  A
    parsed column is homogeneous, so the relative order of an integer and
    a string is never observed; it is fixed here to keep the order
    total. *)
Definition value_leb (a b : value) : bool :=
  match a, b with
  | VInt x, VInt y => Z.leb x y
  | VInt _, _ => true
  | VStr _, VInt _ => false
  | VStr s, VStr t => String.leb s t
  | VStr _, VNull => true
  | VNull, VNull => true
  | VNull, _ => false
  end.

Definition string_mem (x : string) (l : list string) : bool :=
  existsb (String.eqb x) l.

Definition value_mem (x : value) (l : list value) : bool :=
  existsb (value_eqb x) l.

Fixpoint has_dup (l : list string) : bool :=
  match l with
  | [] => false
  | x :: t => string_mem x t || has_dup t
  end.

(** Python truthiness of an optional string ([None] and [''] are falsy)
    and of an optional list ([None] and [[]] are falsy). *)
Definition truthy_str (o : option string) : option string :=
  match o with
  | Some EmptyString => None
  | Some s => Some s
  | None => None
  end.

Definition truthy_list {A} (o : option (list A)) : option (list A) :=
  match o with
  | Some [] => None
  | Some l => Some l
  | None => None
  end.

(** A Python [str] is held as its UTF-8 encoding.  A byte of the form
    [10xxxxxx] continues a character; every other byte starts one. *)
Definition continuation (a : ascii) : bool :=
  match a with
  | Ascii _ _ _ _ _ _ b6 b7 => b7 && negb b6
  end.

(** [len(s)] for a [str]: the number of its characters (code points),
    not of its bytes. *)
Fixpoint py_len (s : string) : nat :=
  match s with
  | EmptyString => 0
  | String a t => (if continuation a then 0 else 1) + py_len t
  end.

(** The bytes that continue the character before [s]. *)
Fixpoint continuation_prefix (s : string) : string :=
  match s with
  | EmptyString => EmptyString
  | String a t =>
      if continuation a then String a (continuation_prefix t) else EmptyString
  end.

(** ** The dataframe operations the loaders call *)

Module DF.

(** A frame: a named row index and labelled columns, column-major. *)
Record frame : Type := mkFrame {
  index_name : option string;
  index : list value;
  fcols : list (string * list value)
}.

(** [df.columns] *)
Definition frame_columns (f : frame) : list string := map fst (fcols f).

Definition nrows (f : frame) : nat := length (index f).

Fixpoint assoc {A} (k : string) (l : list (string * A)) : option A :=
  match l with
  | [] => None
  | (k', v) :: t => if String.eqb k k' then Some v else assoc k t
  end.

(** A parsed CSV file: header row and records.  A record shorter than
    the header is padded with missing values. *)
Record csv_file : Type := mkCsv {
  header : list string;
  records : list (list value)
}.

Fixpoint columns_from (j : nat) (hs : list string) (rs : list (list value))
  : list (string * list value) :=
  match hs with
  | [] => []
  | h :: t => (h, map (fun r => nth j r VNull) rs) :: columns_from (S j) t rs
  end.

Definition range_index (n : nat) : list value :=
  map (fun i => VInt (Z.of_nat i)) (seq 0 n).

(** [cudf.read_csv(path)] on the parsed contents: a default integer
    index [0..n-1] without a name. *)
Definition parse (c : csv_file) : frame :=
  {| index_name := None;
     index := range_index (length (records c));
     fcols := columns_from 0 (header c) (records c) |}.

(** [df[c]]: one column as a series. *)
Definition getitem (c : string) (f : frame) : result (list value) :=
  match assoc c (fcols f) with
  | Some v => Ok v
  | None => Raise (KeyError (VStr c))
  end.

Fixpoint select_cols (cs : list string) (cols : list (string * list value))
  : result (list (string * list value)) :=
  match cs with
  | [] => Ok []
  | c :: t =>
      match assoc c cols with
      | None => Raise (KeyError (VStr c))
      | Some v => rbind (select_cols t cols) (fun r => Ok ((c, v) :: r))
      end
  end.

(** [df[cs]] for a list of labels: the named columns in the order
    asked, on the same index.  A missing label is a [KeyError]; a label
    asked twice is refused, column labels of a frame being unique. *)
Definition getitems (cs : list string) (f : frame) : result frame :=
  if has_dup cs then Raise (ValueError "duplicate column labels")
  else rbind (select_cols cs (fcols f)) (fun cols =>
         Ok {| index_name := index_name f; index := index f; fcols := cols |}).

Definition gather (ps : list nat) (c : list value) : list value :=
  map (fun p => nth p c VNull) ps.

(** Rows at the given positions, in that order. *)
Definition take (ps : list nat) (f : frame) : frame :=
  {| index_name := index_name f;
     index := gather ps (index f);
     fcols := map (fun nc => (fst nc, gather ps (snd nc))) (fcols f) |}.

(** [df.set_index(c)]: column [c] becomes the index and leaves the
    columns. *)
Definition set_index (c : string) (f : frame) : result frame :=
  match assoc c (fcols f) with
  | None => Raise (KeyError (VStr c))
  | Some v =>
      Ok {| index_name := Some c;
            index := v;
            fcols := filter (fun nc => negb (String.eqb (fst nc) c)) (fcols f) |}
  end.

Fixpoint insert_key (x : value * nat) (l : list (value * nat))
  : list (value * nat) :=
  match l with
  | [] => [x]
  | y :: t =>
      if value_leb (fst x) (fst y) then x :: l else y :: insert_key x t
  end.

Fixpoint sort_keys (l : list (value * nat)) : list (value * nat) :=
  match l with
  | [] => []
  | x :: t => insert_key x (sort_keys t)
  end.

(** [df.sort_index()]: rows by ascending index label, stable. *)
Definition sort_index (f : frame) : frame :=
  take (map snd (sort_keys (combine (index f) (seq 0 (nrows f))))) f.

(** [df.index.name = n] *)
Definition set_index_name (n : string) (f : frame) : frame :=
  {| index_name := Some n; index := index f; fcols := fcols f |}.

Definition positions_of (l : value) (idx : list value) : list nat :=
  filter (fun p => value_eqb (nth p idx VNull) l) (seq 0 (length idx)).

Fixpoint loc_positions (labels : list value) (idx : list value)
  : result (list nat) :=
  match labels with
  | [] => Ok []
  | l :: t =>
      match positions_of l idx with
      | [] => Raise (KeyError l)
      | ps => rbind (loc_positions t idx) (fun r => Ok (ps ++ r))
      end
  end.

(** [df.loc[labels]] for a list of labels: for each label in the order
    of the list, the rows carrying it; a label no row carries is a
    [KeyError]. *)
Definition loc (labels : list value) (f : frame) : result frame :=
  rbind (loc_positions labels (index f)) (fun ps => Ok (take ps f)).

(** A Python [dict] from strings to strings, keys unique, in insertion
    order. *)
Definition pydict : Type := list (string * string).

Fixpoint dict_set (k v : string) (d : pydict) : pydict :=
  match d with
  | [] => [(k, v)]
  | (k', v') :: t =>
      if String.eqb k k' then (k', v) :: t else (k', v') :: dict_set k v t
  end.

(** [dict(pairs)]: later pairs overwrite earlier ones. *)
Definition dict_of (ps : list (string * string)) : pydict :=
  fold_left (fun d kv => dict_set (fst kv) (snd kv) d) ps [].

Definition rename_label (m : pydict) (n : string) : string :=
  match assoc n m with
  | Some n' => n'
  | None => n
  end.

(** [df.rename(columns=m)]: labels in [m] are replaced, the others and
    keys of [m] that label no column are left alone; a renaming that
    makes two labels equal is refused. *)
Definition rename (m : pydict) (f : frame) : result frame :=
  let cols := map (fun nc => (rename_label m (fst nc), snd nc)) (fcols f) in
  if has_dup (map fst cols) then Raise (ValueError "duplicate column names")
  else Ok {| index_name := index_name f; index := index f; fcols := cols |}.

(** [series.max()]: the greatest non-missing value, NaN when there is
    none. *)
Definition max_step (acc v : value) : value :=
  match v, acc with
  | VNull, _ => acc
  | _, VNull => v
  | _, _ => if value_leb acc v then v else acc
  end.

Definition series_max (s : list value) : value := fold_left max_step s VNull.

(** [series.to_pandas().map(len)]: [len] of every element; only strings
    have one, and theirs is the number of characters. *)
Fixpoint map_len (s : list value) : result (list value) :=
  match s with
  | [] => Ok []
  | VStr x :: t =>
      rbind (map_len t) (fun r => Ok (VInt (Z.of_nat (py_len x)) :: r))
  | _ :: _ => Raise (TypeError "object has no len()")
  end.

(** The rows of a frame: index label and cells, top to bottom. *)
Definition row_at (f : frame) (p : nat) : value * list value :=
  (nth p (index f) VNull, map (fun nc => nth p (snd nc) VNull) (fcols f)).

Definition frame_rows (f : frame) : list (value * list value) :=
  map (row_at f) (seq 0 (nrows f)).

End DF.

(** ** [cuchem/datasets/molecules_properties.py] *)

Module Datasets.
Import DF.

Definition TABLE_LIST : list string :=
  ["chembl"; "lipophilicity"; "esol"; "freesolv"; "zinc15_test"].

(** The [**kwargs] of a constructor call. *)
Definition kwargs : Type := list (string * value).

(** What the [name] attribute can hold: the base constructor stores
    whatever it is given, and the subclasses give it their [kwargs]
    dict. *)
Inductive name_val : Type :=
| NameNone
| NameStr (s : string)
| NameKwargs (kw : kwargs).

(** The attributes of a dataset object.  [table_name] is set by the
    subclasses only; [None] there stands for an absent attribute. *)
Record dataset : Type := mkDataset {
  name : name_val;
  table_name : option string;
  data_path : option string;
  data : option frame;
  max_len : option value;
  properties : option frame;
  properties_cols : option (list string);
  index_col : option string;
  index_selection : option (list value)
}.

Definition set_name (x : name_val) (s : dataset) : dataset :=
  mkDataset x (table_name s) (data_path s) (data s) (max_len s)
    (properties s) (properties_cols s) (index_col s) (index_selection s).
Definition set_table_name (x : option string) (s : dataset) : dataset :=
  mkDataset (name s) x (data_path s) (data s) (max_len s)
    (properties s) (properties_cols s) (index_col s) (index_selection s).
Definition set_data_path (x : option string) (s : dataset) : dataset :=
  mkDataset (name s) (table_name s) x (data s) (max_len s)
    (properties s) (properties_cols s) (index_col s) (index_selection s).
Definition set_data (x : option frame) (s : dataset) : dataset :=
  mkDataset (name s) (table_name s) (data_path s) x (max_len s)
    (properties s) (properties_cols s) (index_col s) (index_selection s).
Definition set_max_len (x : option value) (s : dataset) : dataset :=
  mkDataset (name s) (table_name s) (data_path s) (data s) x
    (properties s) (properties_cols s) (index_col s) (index_selection s).
Definition set_properties (x : option frame) (s : dataset) : dataset :=
  mkDataset (name s) (table_name s) (data_path s) (data s) (max_len s)
    x (properties_cols s) (index_col s) (index_selection s).
Definition set_properties_cols (x : option (list string)) (s : dataset)
  : dataset :=
  mkDataset (name s) (table_name s) (data_path s) (data s) (max_len s)
    (properties s) x (index_col s) (index_selection s).
Definition set_index_col (x : option string) (s : dataset) : dataset :=
  mkDataset (name s) (table_name s) (data_path s) (data s) (max_len s)
    (properties s) (properties_cols s) x (index_selection s).

(** The [columns] argument of [_load_csv] and [load]: a list of labels,
    or a single label that is not wrapped in a list. *)
Inductive col_arg : Type :=
| ColName (c : string)
| ColList (cs : list string).

(** [[columns] if not isinstance(columns, list) else columns] *)
Definition as_list (columns : col_arg) : list string :=
  match columns with
  | ColName c => [c]
  | ColList cs => cs
  end.

(** [columns[0]]: the first label of a list, the first character of a
    string (its first byte and the bytes that continue it). *)
Definition first_item (columns : col_arg) : result string :=
  match columns with
  | ColList (c :: _) => Ok c
  | ColList [] => Raise IndexError
  | ColName (String a t) => Ok (String a (continuation_prefix t))
  | ColName EmptyString => Raise IndexError
  end.

(** The files a loader can read, by path, already parsed. *)
Definition filesystem : Type := string -> option csv_file.

(** [os.path.exists] *)
Definition path_exists (fs : filesystem) (p : string) : bool :=
  match fs p with
  | Some _ => true
  | None => false
  end.

(** [cudf.read_csv(self.data_path)] *)
Definition read_csv (fs : filesystem) (path : option string) : result frame :=
  match path with
  | None => Raise (ValueError "Must pass a filepath or buffer")
  | Some p =>
      match fs p with
      | Some c => Ok (parse c)
      | None => Raise (FileNotFoundError p)
      end
  end.

(** Methods run on the object: they may assign attributes before they
    raise, and the assignments stay. *)
Definition M (A : Type) : Type := dataset -> dataset * result A.

Definition ret {A} (a : A) : M A := fun s => (s, Ok a).

Definition bind {A B} (m : M A) (k : A -> M B) : M B :=
  fun s =>
    match m s with
    | (s', Ok a) => k a s'
    | (s', Raise e) => (s', Raise e)
    end.

Definition lift {A} (r : result A) : M A := fun s => (s, r).

Definition get_self : M dataset := fun s => (s, Ok s).

Definition assign (f : dataset -> dataset) : M unit :=
  fun s => (f s, Ok tt).

Notation "x <- c ;; k" := (bind c (fun x => k))
  (at level 61, c at next level, right associativity).
Notation "c ;;; k" := (bind c (fun _ => k))
  (at level 61, right associativity).

Module GenericCSVDataset.

Definition __init__ (name : name_val) (properties_cols : option (list string))
  (index_col : option string) (index_selection : option (list value))
  (data_path : option string) : dataset :=
  {| name := name;
     table_name := None;
     data_path := data_path;
     data := None;
     max_len := None;
     properties := None;
     properties_cols := properties_cols;
     index_col := index_col;
     index_selection := index_selection |}.

(** [_load_csv], lines 26-31: the file read and indexed. *)
Definition indexed_table (fs : filesystem) (self : dataset) : result frame :=
  rbind (read_csv fs (data_path self)) (fun data =>
    match truthy_str (index_col self) with
    | Some c => rbind (set_index c data) (fun d => Ok (sort_index d))
    | None => Ok (set_index_name "index" data)
    end).

(** [_load_csv], lines 33-34: the rows of [index_selection]. *)
Definition select_rows (self : dataset) (data : frame) : result frame :=
  match truthy_list (index_selection self) with
  | Some sel => loc sel data
  | None => Ok data
  end.

(** [_load_csv], lines 36-39: [max_len] is assigned when there is a
    length column or a single primary column, and left as it is
    otherwise. *)
Definition compute_max_len (columns : list string)
  (length_column : option string) (data : frame) : M unit :=
  match truthy_str length_column with
  | Some lc =>
      s <- lift (getitem lc data) ;;
      assign (set_max_len (Some (series_max s)))
  | None =>
      match columns with
      | [c] =>
          s <- lift (getitem c data) ;;
          lens <- lift (map_len s) ;;
          assign (set_max_len (Some (series_max lens)))
      | _ => ret tt
      end
  end.

(** [_load_csv], lines 44-47. *)
Definition remain_columns (columns : list string)
  (length_column : option string) (data : frame) : list string :=
  match truthy_str length_column with
  | Some lc =>
      filter (fun x => negb (string_mem x columns) && negb (string_mem x [lc]))
        (frame_columns data)
  | None =>
      filter (fun x => negb (string_mem x columns)) (frame_columns data)
  end.

Definition _load_csv (fs : filesystem) (columns : col_arg)
  (length_column : option string) (return_remaining : bool)
  : M (frame * option frame) :=
  let columns := as_list columns in
  self <- get_self ;;
  data <- lift (rbind (indexed_table fs self) (select_rows self)) ;;
  compute_max_len columns length_column data ;;;
  cleaned_data <- lift (getitems columns data) ;;
  other_data <-
    (if return_remaining
     then r <- lift (getitems (remain_columns columns length_column data) data) ;;
          ret (Some r)
     else ret None) ;;
  ret (cleaned_data, other_data).

Definition load (fs : filesystem) (columns : col_arg)
  (length_column : option string) : M unit :=
  r <- _load_csv fs columns length_column true ;;
  assign (set_data (Some (fst r))).

End GenericCSVDataset.

Import GenericCSVDataset.

(** [properties[cols]] as the subclasses write it: [properties] is the
    companion table of [_load_csv], [cols] the [properties_cols]
    attribute. *)
Definition subscript (t : option frame) (cols : option (list string))
  : result frame :=
  match t, cols with
  | Some f, Some cs => getitems cs f
  | None, _ => Raise (TypeError "'NoneType' object is not subscriptable")
  | Some _, None => Raise (KeyError VNull)
  end.

(** [properties.rename(columns=dict(zip(orig, cols)))] *)
Definition rename_properties (orig : list string) (t : option frame)
  (cols : option (list string)) : result frame :=
  match t, cols with
  | Some f, Some cs => rename (dict_of (combine orig cs)) f
  | None, _ => Raise (TypeError "'NoneType' object has no attribute 'rename'")
  | Some _, None => Raise (TypeError "zip argument #2 must support iteration")
  end.

(** What a constructor needs from its surroundings: the files, and the
    directory [pathlib.Path(__file__).parent.parent.absolute()]. *)
Record environment : Type := mkEnv {
  files : filesystem;
  package_dir : string
}.

Definition ends_with_sep (s : string) : bool :=
  match rev (list_ascii_of_string s) with
  | "/"%char :: _ => true
  | _ => false
  end.

(** [os.path.join a b] for a relative [b]. *)
Definition os_path_join (a b : string) : string :=
  if String.eqb a "" || ends_with_sep a then a ++ b else a ++ "/" ++ b.

(** [assert os.path.exists(self.data_path)] *)
Definition assert_exists (env : environment) (self : dataset) : result dataset :=
  match data_path self with
  | Some p => if path_exists (files env) p then Ok self else Raise AssertionError
  | None => Raise (TypeError "stat: path should be string, not NoneType")
  end.

Module ChEMBLApprovedDrugsPhyschem.

Definition __init__ (env : environment) (kw : kwargs)
  : list string * result dataset :=
  let self := GenericCSVDataset.__init__ (NameKwargs kw) None None None None in
  let self := set_name (NameStr "ChEMBL Approved Drugs (Phase III/IV)") self in
  let self := set_table_name (Some "chembl") self in
  let self := set_properties_cols (Some ["max_phase_for_ind"; "mw_freebase";
           "alogp"; "hba"; "hbd"; "psa"; "rtb"; "ro3_pass"; "num_ro5_violations";
           "cx_logp"; "cx_logd"; "full_mwt"; "aromatic_rings"; "heavy_atoms";
           "qed_weighted"; "mw_monoisotopic"; "hba_lipinski"; "hbd_lipinski";
           "num_lipinski_ro5_violations"]) self in
  let self := set_data_path
                (Some (os_path_join (os_path_join (package_dir env) "data")
                         "benchmark_ChEMBL_approved_drugs_physchem.csv")) self in
  ([], assert_exists env self).

Definition load (fs : filesystem) (columns : col_arg) : M unit :=
  r <- _load_csv fs columns None true ;;
  self <- get_self ;;
  properties <- lift (subscript (snd r) (properties_cols self)) ;;
  assign (fun s => set_properties (Some properties) (set_data (Some (fst r)) s)).

End ChEMBLApprovedDrugsPhyschem.

Module MoleculeNetLipophilicityPhyschem.

Definition __init__ (env : environment) (kw : kwargs)
  : list string * result dataset :=
  let self := GenericCSVDataset.__init__ (NameKwargs kw) None None None None in
  let self := set_name (NameStr "MoleculeNet Lipophilicity") self in
  let self := set_table_name (Some "lipophilicity") self in
  let self := set_properties_cols (Some ["logD"]) self in
  let self := set_data_path
                (Some (os_path_join (os_path_join (package_dir env) "data")
                         "benchmark_MoleculeNet_Lipophilicity.csv")) self in
  ([], assert_exists env self).

Definition load (fs : filesystem) (columns : col_arg) : M unit :=
  let orig_property_name := ["exp"] in
  r <- _load_csv fs columns None true ;;
  c0 <- lift (first_item columns) ;;
  data <- lift (rename (dict_of [(c0, "canonical_smiles")]) (fst r)) ;;
  self <- get_self ;;
  properties <- lift (rename_properties orig_property_name (snd r)
                        (properties_cols self)) ;;
  properties <- lift (subscript (Some properties) (properties_cols self)) ;;
  assign (fun s => set_properties (Some properties) (set_data (Some data) s)).

End MoleculeNetLipophilicityPhyschem.

Module MoleculeNetESOLPhyschem.

Definition __init__ (env : environment) (kw : kwargs)
  : list string * result dataset :=
  let self := GenericCSVDataset.__init__ (NameKwargs kw) None None None None in
  let self := set_name (NameStr "MoleculeNet ESOL") self in
  let self := set_table_name (Some "esol") self in
  let self := set_properties_cols (Some ["log_solubility_(mol_per_L)"]) self in
  let self := set_data_path
                (Some (os_path_join (os_path_join (package_dir env) "data")
                         "benchmark_MoleculeNet_ESOL.csv")) self in
  ([], assert_exists env self).

Definition load (fs : filesystem) (columns : col_arg) : M unit :=
  let orig_property_name := ["measured log solubility in mols per litre"] in
  r <- _load_csv fs columns None true ;;
  c0 <- lift (first_item columns) ;;
  data <- lift (rename (dict_of [(c0, "canonical_smiles")]) (fst r)) ;;
  self <- get_self ;;
  properties <- lift (rename_properties orig_property_name (snd r)
                        (properties_cols self)) ;;
  properties <- lift (subscript (Some properties) (properties_cols self)) ;;
  assign (fun s => set_properties (Some properties) (set_data (Some data) s)).

End MoleculeNetESOLPhyschem.

Module MoleculeNetFreeSolvPhyschem.

Definition __init__ (env : environment) (kw : kwargs)
  : list string * result dataset :=
  let self := GenericCSVDataset.__init__ (NameKwargs kw) None None None None in
  let self := set_name (NameStr "MoleculeNet FreeSolv") self in
  let self := set_table_name (Some "freesolv") self in
  let self := set_properties_cols (Some ["hydration_free_energy"]) self in
  let self := set_data_path
                (Some (os_path_join (os_path_join (package_dir env) "data")
                         "benchmark_MoleculeNet_FreeSolv.csv")) self in
  ([], assert_exists env self).

Definition load (fs : filesystem) (columns : col_arg) : M unit :=
  let orig_property_name := ["y"] in
  r <- _load_csv fs columns None true ;;
  c0 <- lift (first_item columns) ;;
  data <- lift (rename (dict_of [(c0, "canonical_smiles")]) (fst r)) ;;
  self <- get_self ;;
  properties <- lift (rename_properties orig_property_name (snd r)
                        (properties_cols self)) ;;
  properties <- lift (subscript (Some properties) (properties_cols self)) ;;
  assign (fun s => set_properties (Some properties) (set_data (Some data) s)).

End MoleculeNetFreeSolvPhyschem.

Module ZINC15TestSplit.

Definition __init__ (env : environment) (kw : kwargs)
  : list string * result dataset :=
  let self := GenericCSVDataset.__init__ (NameKwargs kw) None None None None in
  let self := set_name (NameStr "ZINC15 Test Split 20K Samples") self in
  let self := set_table_name (Some "zinc15_test") self in
  let self := set_properties_cols (Some ["logp"; "mw"]) self in
  let self := set_index_col (Some "index") self in
  let self := set_data_path
                (Some (os_path_join (os_path_join (package_dir env) "data")
                         "benchmark_ZINC15_test_split.csv")) self in
  ([], assert_exists env self).

Definition load (fs : filesystem) (columns : col_arg)
  (length_column : option string) : M unit :=
  r <- _load_csv fs columns length_column false ;;
  assign (set_data (Some (fst r))).

End ZINC15TestSplit.

(** Deprecated; [load] is the inherited [GenericCSVDataset.load].  The
    first component of the result is what went to [logger.warn]. *)
Module ChEMBL20KSamples.

Definition __init__ (env : environment) (kw : kwargs)
  : list string * result dataset :=
  let self := GenericCSVDataset.__init__ (NameKwargs kw) None None None None in
  let self := set_name (NameStr "ChEMBL 20K Samples") self in
  let warning :=
    ("Class " ++ "ChEMBL 20K Samples" ++ " is deprecated.")%string in
  let self := set_index_col (Some "molregno") self in
  let self := set_data_path
                (Some (os_path_join (os_path_join (package_dir env) "data")
                         "benchmark_ChEMBL_random_sampled_drugs.csv")) self in
  ([warning], assert_exists env self).

Definition load := GenericCSVDataset.load.

End ChEMBL20KSamples.

(** *** The classes as one family *)

Inductive variant : Type :=
| VChEMBLApprovedDrugsPhyschem
| VMoleculeNetLipophilicityPhyschem
| VMoleculeNetESOLPhyschem
| VMoleculeNetFreeSolvPhyschem
| VZINC15TestSplit
| VChEMBL20KSamples.

(** [__all__]: the five classes that are not deprecated. *)
Definition all_variants : list variant :=
  [VChEMBLApprovedDrugsPhyschem; VMoleculeNetLipophilicityPhyschem;
   VMoleculeNetESOLPhyschem; VMoleculeNetFreeSolvPhyschem; VZINC15TestSplit].

Definition construct (v : variant) (env : environment) (kw : kwargs)
  : list string * result dataset :=
  match v with
  | VChEMBLApprovedDrugsPhyschem => ChEMBLApprovedDrugsPhyschem.__init__ env kw
  | VMoleculeNetLipophilicityPhyschem =>
      MoleculeNetLipophilicityPhyschem.__init__ env kw
  | VMoleculeNetESOLPhyschem => MoleculeNetESOLPhyschem.__init__ env kw
  | VMoleculeNetFreeSolvPhyschem => MoleculeNetFreeSolvPhyschem.__init__ env kw
  | VZINC15TestSplit => ZINC15TestSplit.__init__ env kw
  | VChEMBL20KSamples => ChEMBL20KSamples.__init__ env kw
  end.

(** The arguments of a [load] call; [None] is an argument left out, which
    takes the default of the class's signature. *)
Record load_args : Type := mkArgs {
  arg_columns : option col_arg;
  arg_length_column : option (option string)
}.

Definition no_args : load_args :=
  {| arg_columns := None; arg_length_column := None |}.

Definition or_default {A} (o : option A) (d : A) : A :=
  match o with
  | Some a => a
  | None => d
  end.

Definition raise {A} (e : exn) : M A := fun s => (s, Raise e).

(** [obj.load(...)] dispatched on the class of [obj]. *)
Definition load_method (v : variant) (fs : filesystem) (a : load_args) : M unit :=
  let unexpected : M unit :=
    raise (TypeError "load() got an unexpected keyword argument 'length_column'") in
  match v with
  | VChEMBLApprovedDrugsPhyschem =>
      match arg_length_column a with
      | Some _ => unexpected
      | None => ChEMBLApprovedDrugsPhyschem.load fs
                  (or_default (arg_columns a) (ColList ["canonical_smiles"]))
      end
  | VMoleculeNetLipophilicityPhyschem =>
      match arg_length_column a with
      | Some _ => unexpected
      | None => MoleculeNetLipophilicityPhyschem.load fs
                  (or_default (arg_columns a) (ColList ["smiles"]))
      end
  | VMoleculeNetESOLPhyschem =>
      match arg_length_column a with
      | Some _ => unexpected
      | None => MoleculeNetESOLPhyschem.load fs
                  (or_default (arg_columns a) (ColList ["smiles"]))
      end
  | VMoleculeNetFreeSolvPhyschem =>
      match arg_length_column a with
      | Some _ => unexpected
      | None => MoleculeNetFreeSolvPhyschem.load fs
                  (or_default (arg_columns a) (ColList ["smiles"]))
      end
  | VZINC15TestSplit =>
      ZINC15TestSplit.load fs
        (or_default (arg_columns a) (ColList ["canonical_smiles"]))
        (or_default (arg_length_column a) (Some "length"))
  | VChEMBL20KSamples =>
      ChEMBL20KSamples.load fs
        (or_default (arg_columns a) (ColList ["canonical_smiles"]))
        (or_default (arg_length_column a) (Some "length"))
  end.

End Datasets.

(** ** [cuchemportal/pipeline/pipeline_manager.py] *)

Module Portal.

(** What a database call can raise: [sqlalchemy.exc.IntegrityError], or
    anything else. *)
Inductive db_error : Type :=
| IntegrityError (msg : string)
| OtherError (msg : string).

Inductive outcome (A : Type) : Type :=
| Return (a : A)
| Raised (e : db_error).
Arguments Return {A} a.
Arguments Raised {A} e.

(** What happens to the session during one call of the manager. *)
Inductive event : Type :=
| EvSession
| EvInsert
| EvUpdateRecord (id : Z)
| EvQueryById (id : Z)
| EvQueryRange (start_idx n_rows : Z)
| EvDelete (id : Z)
| EvCommit
| EvCommitRefused
| EvRollback
| EvClose.

Definition event_eqb (a b : event) : bool :=
  match a, b with
  | EvSession, EvSession | EvInsert, EvInsert | EvCommit, EvCommit
  | EvCommitRefused, EvCommitRefused
  | EvRollback, EvRollback | EvClose, EvClose => true
  | EvUpdateRecord i, EvUpdateRecord j | EvQueryById i, EvQueryById j
  | EvDelete i, EvDelete j => Z.eqb i j
  | EvQueryRange i n, EvQueryRange j m => Z.eqb i j && Z.eqb n m
  | _, _ => false
  end.

(** The [DBClient] of [cuchemportal.data.db_client], which is not part
    of the two source files, over the contents of the database, the
    [Pipeline] record type and the type of a configuration: its five
    calls act on the pending contents of the session they are given and
    return or raise; [integrity] is the check a commit makes of the
    pending contents before they become durable. *)
Record DBClient (store Pipeline conf : Type) : Type := mkClient {
  insert : Pipeline -> store -> store * outcome Pipeline;
  update_record : Z -> conf -> store -> store * outcome Pipeline;
  query_by_id : Z -> store -> store * outcome Pipeline;
  query_range : Z -> Z -> store -> store * outcome (list Pipeline);
  delete : Z -> store -> store * outcome Pipeline;
  integrity : store -> option db_error
}.
Arguments mkClient {store Pipeline conf}.
Arguments insert {store Pipeline conf}.
Arguments update_record {store Pipeline conf}.
Arguments query_by_id {store Pipeline conf}.
Arguments query_range {store Pipeline conf}.
Arguments delete {store Pipeline conf}.
Arguments integrity {store Pipeline conf}.

(** A session: the durable contents, the pending contents of the open
    transaction, and the events so far. *)
Record session (store : Type) : Type := mkSession {
  committed : store;
  pending : store;
  trace : list event
}.
Arguments mkSession {store}.
Arguments committed {store}.
Arguments pending {store}.
Arguments trace {store}.

Section Session.

Context {store Pipeline conf : Type}.

Definition log (e : event) (s : session store) : session store :=
  {| committed := committed s; pending := pending s; trace := trace s ++ [e] |}.

(** A client call made with [session=sess]. *)
Definition call {A} (e : event) (op : store -> store * outcome A)
  (sess : session store) : session store * outcome A :=
  let r := op (pending sess) in
  ({| committed := committed sess; pending := fst r; trace := trace sess ++ [e] |},
   snd r).

(** [sess.commit()]: the pending contents become durable, unless
    the integrity check refuses them. *)
Definition commit (c : DBClient store Pipeline conf) (sess : session store)
  : session store * outcome unit :=
  match integrity c (pending sess) with
  | None =>
      ({| committed := pending sess; pending := pending sess;
          trace := trace sess ++ [EvCommit] |}, Return tt)
  | Some e => (log EvCommitRefused sess, Raised e)
  end.

(** [sess.rollback()] *)
Definition rollback (sess : session store) : session store :=
  {| committed := committed sess; pending := committed sess;
     trace := trace sess ++ [EvRollback] |}.

(** [with self.db_client.Session() as sess: body]: the session opens
    on the durable contents and is closed on every way out; what was
    not committed is dropped.  The result is the database after the
    call, the events, and what the call returns or raises. *)
Definition with_session {A} (db : store)
  (body : session store -> session store * outcome A)
  : store * list event * outcome A :=
  let r := body {| committed := db; pending := db; trace := [EvSession] |} in
  (committed (fst r), trace (fst r) ++ [EvClose], snd r).

End Session.

Module PipelineManager.
Section Methods.

Context {store Pipeline conf : Type}.

(** [self.db_client] *)
Variable db_client : DBClient store Pipeline conf.

Definition create (ppln : Pipeline) (db : store)
  : store * list event * outcome Pipeline :=
  with_session db (fun sess =>
    match call EvInsert (insert db_client ppln) sess with
    | (sess, Return record) =>
        match commit db_client sess with
        | (sess, Return _) => (sess, Return record)
        | (sess, Raised e) => (sess, Raised e)
        end
    | (sess, Raised e) => (sess, Raised e)
    end).

Definition update (previous_id : Z) (new_conf : conf) (db : store)
  : store * list event * outcome Pipeline :=
  with_session db (fun sess =>
    let try :=
      match call (EvUpdateRecord previous_id)
              (update_record db_client previous_id new_conf) sess with
      | (sess, Return pipeline) =>
          match commit db_client sess with
          | (sess, Return _) => (sess, Return pipeline)
          | (sess, Raised e) => (sess, Raised e)
          end
      | (sess, Raised e) => (sess, Raised e)
      end in
    match try with
    | (sess, Raised (IntegrityError m)) =>
        (rollback sess, Raised (IntegrityError m))
    | other => other
    end).

Definition fetch_by_id (pipeline_id : Z) (db : store)
  : store * list event * outcome Pipeline :=
  with_session db (fun sess =>
    call (EvQueryById pipeline_id) (query_by_id db_client pipeline_id) sess).

Definition fetch_all (start_index num_rows : Z) (db : store)
  : store * list event * outcome (list Pipeline) :=
  with_session db (fun sess =>
    call (EvQueryRange start_index num_rows)
      (query_range db_client start_index num_rows) sess).

Definition delete (pipeline_id : Z) (db : store)
  : store * list event * outcome Pipeline :=
  with_session db (fun sess =>
    match call (EvDelete pipeline_id) (delete db_client pipeline_id) sess with
    | (sess, Return deleted) =>
        match commit db_client sess with
        | (sess, Return _) => (sess, Return deleted)
        | (sess, Raised e) => (sess, Raised e)
        end
    | (sess, Raised e) => (sess, Raised e)
    end).

End Methods.
End PipelineManager.

(** The three components of what a manager call yields. *)
Definition db_after {S A} (r : S * list event * outcome A) : S := fst (fst r).
Definition events {S A} (r : S * list event * outcome A) : list event :=
  snd (fst r).
Definition result_of {S A} (r : S * list event * outcome A) : outcome A := snd r.

Definition commits (t : list event) : bool := existsb (event_eqb EvCommit) t.

(** A call of the manager is scoped on a session and delegates to the
    client call [e] when its events open a session, make that call
    first, and close the session last. *)
Definition scoped (e : event) (t : list event) : Prop :=
  exists mid, t = [EvSession; e] ++ mid ++ [EvClose].

(** *** A small client to run the manager on

    Pipelines are (id, configuration) rows; two rows may not carry the
    same configuration.  [update_record] writes the new configuration
    first and then finds the clash, so what it leaves pending when it
    raises is a partial write. *)
Module Sample.

Definition row : Type := (Z * string)%type.
Definition table : Type := list row.

Fixpoint lookup (id : Z) (t : table) : option row :=
  match t with
  | [] => None
  | (i, c) :: rest => if Z.eqb i id then Some (i, c) else lookup id rest
  end.

Definition write (id : Z) (c : string) (t : table) : table :=
  map (fun r => if Z.eqb (fst r) id then (id, c) else r) t.

Fixpoint unique (l : list string) : bool :=
  match l with
  | [] => true
  | x :: t => negb (string_mem x t) && unique t
  end.

Definition check (t : table) : option db_error :=
  if unique (map snd t) then None
  else Some (IntegrityError "Duplicate entry").

Definition client : DBClient table row string :=
  {| insert := fun r t =>
       match check (t ++ [r]) with
       | None => (t ++ [r], Return r)
       | Some e => (t ++ [r], Raised e)
       end;
     update_record := fun id c t =>
       match lookup id t with
       | None => (t, Raised (OtherError "no such pipeline"))
       | Some _ =>
           match check (write id c t) with
           | None => (write id c t, Return (id, c))
           | Some e => (write id c t, Raised e)
           end
       end;
     query_by_id := fun id t =>
       match lookup id t with
       | Some r => (t, Return r)
       | None => (t, Raised (OtherError "no such pipeline"))
       end;
     query_range := fun start n t =>
       (t, Return (firstn (Z.to_nat n) (skipn (Z.to_nat start) t)));
     delete := fun id t =>
       match lookup id t with
       | Some r => (filter (fun x => negb (Z.eqb (fst x) id)) t, Return r)
       | None => (t, Raised (OtherError "no such pipeline"))
       end;
     integrity := check |}.

Definition db0 : table := [(1%Z, "conf-a"); (2%Z, "conf-b")].

End Sample.

End Portal.

(** ** Notions the statements below use *)

Module Spec.
Import DF.

(** [m] is the maximum of the series [s]: its greatest value that is
    not missing, or NaN when every value is missing. *)
Definition is_maximum (m : value) (s : list value) : Prop :=
  (m <> VNull /\ In m s
   /\ forall v, In v s -> v <> VNull -> value_leb v m = true)
  \/ (m = VNull /\ forall v, In v s -> v = VNull).

(** Labels in ascending order. *)
Definition value_le (a b : value) : Prop := value_leb a b = true.

Definition ascending (l : list value) : Prop := Sorted value_le l.

(** The same order on labels paired with row positions. *)
Definition key_le (x y : value * nat) : Prop := value_le (fst x) (fst y).

Import Datasets.

(** The loaded state of an object forgotten: its configuration with
    [data], [max_len] and [properties] absent. *)
Definition blank (s : dataset) : dataset :=
  mkDataset (name s) (table_name s) (data_path s) None None None
    (properties_cols s) (index_col s) (index_selection s).

Definition or_else {A} (x y : option A) : option A :=
  match x with
  | Some _ => x
  | None => y
  end.

(** The object [s] with the loaded fields that [t] has. *)
Definition overlay (t s : dataset) : dataset :=
  mkDataset (name s) (table_name s) (data_path s)
    (or_else (data t) (data s)) (or_else (max_len t) (max_len s))
    (or_else (properties t) (properties s))
    (properties_cols s) (index_col s) (index_selection s).

(** A method is driven by the configuration when what it assigns and
    what it returns depend on the configuration of the object only, and
    all it does to the object is to assign loaded fields. *)
Definition config_driven {A} (m : M A) : Prop :=
  forall s,
    m s = (overlay (fst (m (blank s))) s, snd (m (blank s)))
    /\ blank (fst (m (blank s))) = blank s.

End Spec.

Module SpecLoad.
Import DF Datasets.

(** The [columns] a [load] call works with: the argument, or the
    default of the class's signature. *)
Definition requested (v : variant) (a : load_args) : col_arg :=
  match arg_columns a with
  | Some c => c
  | None =>
      match v with
      | VMoleculeNetLipophilicityPhyschem | VMoleculeNetESOLPhyschem
      | VMoleculeNetFreeSolvPhyschem => ColList ["smiles"]
      | _ => ColList ["canonical_smiles"]
      end
  end.

(** A class performs a rename step when some successful [load] leaves
    [data] with labels other than the ones requested. *)
Definition performs_rename (v : variant) : Prop :=
  exists fs a s s' d,
    load_method v fs a s = (s', Ok tt)
    /\ data s' = Some d
    /\ frame_columns d <> as_list (requested v a).

(** The source labels of the property columns, per class. *)
Definition orig_property_name (v : variant) : list string :=
  match v with
  | VMoleculeNetLipophilicityPhyschem => ["exp"]
  | VMoleculeNetESOLPhyschem => ["measured log solubility in mols per litre"]
  | VMoleculeNetFreeSolvPhyschem => ["y"]
  | _ => []
  end.

(** The body the three MoleculeNet classes repeat in [load], with its
    [orig_property_name]. *)
Definition renaming_load (orig : list string) (fs : filesystem)
  (columns : col_arg) : M unit :=
  bind (GenericCSVDataset._load_csv fs columns None true) (fun r =>
  bind (lift (first_item columns)) (fun c0 =>
  bind (lift (rename (dict_of [(c0, "canonical_smiles")]) (fst r))) (fun data =>
  bind get_self (fun self =>
  bind (lift (rename_properties orig (snd r) (properties_cols self)))
    (fun properties =>
  bind (lift (subscript (Some properties) (properties_cols self)))
    (fun properties =>
  assign (fun s => set_properties (Some properties)
                     (set_data (Some data) s)))))))).

(** The labels [data] is to carry after [load]: the labels requested,
    the one that [columns[0]] names replaced by [canonical_smiles] in
    the classes that rename. *)
Definition expected_labels (v : variant) (columns : col_arg) : list string :=
  match v with
  | VMoleculeNetLipophilicityPhyschem | VMoleculeNetESOLPhyschem
  | VMoleculeNetFreeSolvPhyschem =>
      match first_item columns with
      | Ok c0 => map (rename_label [(c0, "canonical_smiles")]) (as_list columns)
      | Raise _ => as_list columns
      end
  | _ => as_list columns
  end.

(** The three MoleculeNet classes. *)
Definition renaming_variants : list variant :=
  [VMoleculeNetLipophilicityPhyschem; VMoleculeNetESOLPhyschem;
   VMoleculeNetFreeSolvPhyschem].

Definition is_renaming (v : variant) : bool :=
  match v with
  | VMoleculeNetLipophilicityPhyschem | VMoleculeNetESOLPhyschem
  | VMoleculeNetFreeSolvPhyschem => true
  | _ => false
  end.

Definition list_columns (cs : list string) : load_args :=
  {| arg_columns := Some (ColList cs); arg_length_column := None |}.

(** The classes whose [load] assigns [properties]. *)
Definition has_properties (v : variant) : bool :=
  match v with
  | VZINC15TestSplit | VChEMBL20KSamples => false
  | _ => true
  end.

(** [x] is the label an optional argument names. *)
Definition names (o : option string) (x : string) : bool :=
  match truthy_str o with
  | Some c => String.eqb x c
  | None => false
  end.

(** The values a constructor hard-codes, per class. *)
Definition hard_name (v : variant) : string :=
  match v with
  | VChEMBLApprovedDrugsPhyschem => "ChEMBL Approved Drugs (Phase III/IV)"
  | VMoleculeNetLipophilicityPhyschem => "MoleculeNet Lipophilicity"
  | VMoleculeNetESOLPhyschem => "MoleculeNet ESOL"
  | VMoleculeNetFreeSolvPhyschem => "MoleculeNet FreeSolv"
  | VZINC15TestSplit => "ZINC15 Test Split 20K Samples"
  | VChEMBL20KSamples => "ChEMBL 20K Samples"
  end.

Definition hard_table_name (v : variant) : option string :=
  match v with
  | VChEMBLApprovedDrugsPhyschem => Some "chembl"
  | VMoleculeNetLipophilicityPhyschem => Some "lipophilicity"
  | VMoleculeNetESOLPhyschem => Some "esol"
  | VMoleculeNetFreeSolvPhyschem => Some "freesolv"
  | VZINC15TestSplit => Some "zinc15_test"
  | VChEMBL20KSamples => None
  end.

Definition hard_properties_cols (v : variant) : option (list string) :=
  match v with
  | VChEMBLApprovedDrugsPhyschem =>
      Some ["max_phase_for_ind"; "mw_freebase"; "alogp"; "hba"; "hbd"; "psa";
            "rtb"; "ro3_pass"; "num_ro5_violations"; "cx_logp"; "cx_logd";
            "full_mwt"; "aromatic_rings"; "heavy_atoms"; "qed_weighted";
            "mw_monoisotopic"; "hba_lipinski"; "hbd_lipinski";
            "num_lipinski_ro5_violations"]
  | VMoleculeNetLipophilicityPhyschem => Some ["logD"]
  | VMoleculeNetESOLPhyschem => Some ["log_solubility_(mol_per_L)"]
  | VMoleculeNetFreeSolvPhyschem => Some ["hydration_free_energy"]
  | VZINC15TestSplit => Some ["logp"; "mw"]
  | VChEMBL20KSamples => None
  end.

Definition hard_index_col (v : variant) : option string :=
  match v with
  | VZINC15TestSplit => Some "index"
  | VChEMBL20KSamples => Some "molregno"
  | _ => None
  end.

Definition hard_file (v : variant) : string :=
  match v with
  | VChEMBLApprovedDrugsPhyschem => "benchmark_ChEMBL_approved_drugs_physchem.csv"
  | VMoleculeNetLipophilicityPhyschem => "benchmark_MoleculeNet_Lipophilicity.csv"
  | VMoleculeNetESOLPhyschem => "benchmark_MoleculeNet_ESOL.csv"
  | VMoleculeNetFreeSolvPhyschem => "benchmark_MoleculeNet_FreeSolv.csv"
  | VZINC15TestSplit => "benchmark_ZINC15_test_split.csv"
  | VChEMBL20KSamples => "benchmark_ChEMBL_random_sampled_drugs.csv"
  end.

Definition hard_path (v : variant) (env : environment) : string :=
  os_path_join (os_path_join (package_dir env) "data") (hard_file v).

(** The object a constructor yields when it depends on nothing but the
    class. *)
Definition hard_coded (v : variant) (env : environment) : dataset :=
  {| name := NameStr (hard_name v);
     table_name := hard_table_name v;
     data_path := Some (hard_path v env);
     data := None;
     max_len := None;
     properties := None;
     properties_cols := hard_properties_cols v;
     index_col := hard_index_col v;
     index_selection := None |}.

Definition hard_warnings (v : variant) : list string :=
  match v with
  | VChEMBL20KSamples => ["Class ChEMBL 20K Samples is deprecated."]
  | _ => []
  end.

End SpecLoad.

(** ** Sample files and objects *)

Module Samples.
Import DF Datasets.

Definition lipophilicity_csv : csv_file :=
  {| header := ["smiles"; "exp"; "id"];
     records := [[VStr "CCO"; VInt 3; VInt 7];
                 [VStr "C"; VInt 1; VInt 3];
                 [VStr "CCCC"; VInt 2; VInt 5];
                 [VStr "CC"; VInt 9; VInt 1]] |}.

Definition esol_csv : csv_file :=
  {| header := ["smiles"; "measured log solubility in mols per litre"];
     records := [[VStr "CCO"; VInt 1]; [VStr "CCN"; VInt 2]] |}.

Definition freesolv_csv : csv_file :=
  {| header := ["smiles"; "y"];
     records := [[VStr "CO"; VInt (-5)]; [VStr "CC"; VInt 2]] |}.

Definition lipophilicity_path : string :=
  "/opt/cuchem/data/benchmark_MoleculeNet_Lipophilicity.csv".

Definition disk : filesystem :=
  fun p =>
    if String.eqb p lipophilicity_path then Some lipophilicity_csv
    else if String.eqb p "/opt/cuchem/data/benchmark_MoleculeNet_ESOL.csv"
    then Some esol_csv
    else if String.eqb p "/opt/cuchem/data/benchmark_MoleculeNet_FreeSolv.csv"
    then Some freesolv_csv
    else None.

Definition env : environment := {| files := disk; package_dir := "/opt/cuchem" |}.

(** The object [construct v env kw] builds, or an empty generic object
    when the constructor raises. *)
Definition built (v : variant) (kw : kwargs) : dataset :=
  match snd (construct v env kw) with
  | Ok d => d
  | Raise _ => GenericCSVDataset.__init__ NameNone None None None None
  end.

(** A generic object on the lipophilicity file, without an index
    column. *)
Definition plain : dataset :=
  GenericCSVDataset.__init__ (NameStr "plain") None None None
    (Some lipophilicity_path).

(** The same file keyed by its [id] column, the rows 3 and 7 selected;
    and with the selection written the other way round. *)
Definition keyed : dataset :=
  GenericCSVDataset.__init__ (NameStr "keyed") None (Some "id")
    (Some [VInt 3; VInt 7]) (Some lipophilicity_path).

Definition keyed_7_3 : dataset :=
  GenericCSVDataset.__init__ (NameStr "keyed") None (Some "id")
    (Some [VInt 7; VInt 3]) (Some lipophilicity_path).

(** Keyed by [id], every row kept. *)
Definition keyed_all : dataset :=
  GenericCSVDataset.__init__ (NameStr "keyed") None (Some "id") None
    (Some lipophilicity_path).

Definition bare_smiles : load_args :=
  {| arg_columns := Some (ColName "smiles"); arg_length_column := None |}.

End Samples.

(** ** Further notions and samples *)

Module SpecMore.
Import DF Datasets.

(** A method keeps the loaded tables when no run of it changes [data]
    or [properties]; it is quiet on error when no run of it that raises
    does. *)
Definition keeps_tables {A} (m : M A) : Prop :=
  forall s s' r,
    m s = (s', r) -> data s' = data s /\ properties s' = properties s.

Definition quiet_on_error {A} (m : M A) : Prop :=
  forall s s' e,
    m s = (s', Raise e) -> data s' = data s /\ properties s' = properties s.

(** The table [_load_csv] works on: read, indexed, rows selected. *)
Definition loaded_table (fs : filesystem) (self : dataset) : result frame :=
  rbind (GenericCSVDataset.indexed_table fs self)
    (GenericCSVDataset.select_rows self).

(** The [table_name] of the object a constructor yields. *)
Definition constructed_table_name (v : variant) (env : environment)
  (kw : kwargs) : option string :=
  match snd (construct v env kw) with
  | Ok d => table_name d
  | Raise _ => None
  end.

Definition count_event (e : Portal.event) (t : list Portal.event) : nat :=
  length (filter (Portal.event_eqb e) t).

(** The [length_column] a [load] call hands to [_load_csv]: the
    argument, or its default, in the two signatures that have one;
    none in the others. *)
Definition length_arg (v : variant) (a : load_args) : option string :=
  match v with
  | VZINC15TestSplit | VChEMBL20KSamples =>
      match arg_length_column a with
      | Some lc => lc
      | None => Some "length"
      end
  | _ => None
  end.

(** Whether a [load] call reaches one of the two assignments of
    [max_len]: with a length column, or with a single requested
    column. *)
Definition assigns_max_len (v : variant) (a : load_args) : bool :=
  match truthy_str (length_arg v a) with
  | Some _ => true
  | None =>
      match as_list (SpecLoad.requested v a) with
      | [_] => true
      | _ => false
      end
  end.

(** Two objects of the same configuration: they differ at most in
    [data], [max_len] and [properties]. *)
Definition same_configuration (t s : dataset) : Prop :=
  Spec.blank t = Spec.blank s.

(** A string of one-byte characters only. *)
Fixpoint is_ascii (s : string) : bool :=
  match s with
  | EmptyString => true
  | String (Ascii _ _ _ _ _ _ _ b7) t => negb b7 && is_ascii t
  end.

End SpecMore.

Module MoreSamples.
Import DF Datasets.

(** A file with a header and no record. *)
Definition empty_csv : csv_file :=
  {| header := ["smiles"; "exp"]; records := [] |}.

(** A file whose [smiles] column has a missing value. *)
Definition gappy_csv : csv_file :=
  {| header := ["smiles"; "exp"];
     records := [[VStr "CCO"; VInt 3]; [VNull; VInt 1]] |}.

Definition zinc_csv : csv_file :=
  {| header := ["index"; "canonical_smiles"; "length"; "logp"; "mw"];
     records := [[VInt 2; VStr "CCO"; VInt 3; VInt 0; VInt 46];
                 [VInt 1; VStr "CCCC"; VInt 4; VInt 2; VInt 58]] |}.

(** [C] followed by e with an acute accent: three bytes, two
    characters. *)
Definition c_e_acute : string :=
  String "C" (String (ascii_of_nat 195) (String (ascii_of_nat 169) EmptyString)).

Definition accent_csv : csv_file :=
  {| header := ["smiles"]; records := [[VStr c_e_acute]; [VStr "N"]] |}.

Definition disk : filesystem :=
  fun p =>
    if String.eqb p "/data/empty.csv" then Some empty_csv
    else if String.eqb p "/data/accent.csv" then Some accent_csv
    else if String.eqb p "/data/gappy.csv" then Some gappy_csv
    else if String.eqb p "/opt/cuchem/data/benchmark_ZINC15_test_split.csv"
    then Some zinc_csv
    else Samples.disk p.

Definition env : environment := {| files := disk; package_dir := "/opt/cuchem" |}.

Definition on_empty : dataset :=
  GenericCSVDataset.__init__ (NameStr "empty") None None None
    (Some "/data/empty.csv").

Definition on_accent : dataset :=
  GenericCSVDataset.__init__ (NameStr "accent") None None None
    (Some "/data/accent.csv").

Definition on_gappy : dataset :=
  GenericCSVDataset.__init__ (NameStr "gappy") None None None
    (Some "/data/gappy.csv").

(** The ZINC15 object as its constructor builds it. *)
Definition zinc : dataset :=
  match snd (construct VZINC15TestSplit env []) with
  | Ok d => d
  | Raise _ => GenericCSVDataset.__init__ NameNone None None None None
  end.

Definition two_columns : load_args :=
  {| arg_columns := Some (ColList ["smiles"; "id"]); arg_length_column := None |}.

(** The lipophilicity object keyed by [id]. *)
Definition lipophilicity_keyed : dataset :=
  set_index_col (Some "id") (Samples.built VMoleculeNetLipophilicityPhyschem []).

End MoreSamples.

(** * Properties *)

(** ** Values *)

Lemma value_eqb_eq (a b : value) : value_eqb a b = true <-> a = b.
Proof.
  destruct a, b; simpl; split; intro H; try discriminate; try reflexivity.
  - apply Z.eqb_eq in H. now subst.
  - injection H as ->. apply Z.eqb_refl.
  - apply String.eqb_eq in H. now subst.
  - injection H as ->. apply String.eqb_refl.
Qed.

Lemma value_leb_total (a b : value) : value_leb a b = false -> value_leb b a = true.
Proof.
  destruct a, b; simpl; intro H; try discriminate; try reflexivity.
  - apply Z.leb_gt in H. apply Z.leb_le. lia.
  - destruct (String.leb_total s s0) as [E | E]; congruence.
Qed.

Lemma string_leb_iff (s t : string) :
  String.leb s t = true <-> OrderedTypeEx.String_as_OT.lt s t \/ s = t.
Proof.
  unfold String.leb.
  destruct (String.compare s t) eqn:E.
  - apply OrderedTypeEx.String_as_OT.cmp_eq in E. tauto.
  - apply OrderedTypeEx.String_as_OT.cmp_lt in E. tauto.
  - split; [discriminate |].
    intros [H | H].
    + apply OrderedTypeEx.String_as_OT.cmp_lt in H.
      unfold OrderedTypeEx.String_as_OT.cmp in H. congruence.
    + apply OrderedTypeEx.String_as_OT.cmp_eq in H.
      unfold OrderedTypeEx.String_as_OT.cmp in H. congruence.
Qed.

Lemma string_leb_trans (s t u : string) :
  String.leb s t = true -> String.leb t u = true -> String.leb s u = true.
Proof.
  rewrite !string_leb_iff.
  intros [H1 | ->] [H2 | ->]; auto.
  left. eapply OrderedTypeEx.String_as_OT.lt_trans; eauto.
Qed.

Lemma value_leb_trans (a b c : value) :
  value_leb a b = true -> value_leb b c = true -> value_leb a c = true.
Proof.
  destruct a, b, c; simpl; intros H1 H2; try discriminate; try reflexivity.
  - apply Z.leb_le in H1, H2. apply Z.leb_le. lia.
  - eapply string_leb_trans; eauto.
Qed.

Lemma value_leb_refl (a : value) : value_leb a a = true.
Proof.
  destruct a; simpl; auto.
  - apply Z.leb_refl.
  - apply string_leb_iff. now right.
Qed.

Lemma string_mem_In (x : string) (l : list string) :
  string_mem x l = true <-> In x l.
Proof.
  unfold string_mem. rewrite existsb_exists. split.
  - intros [y [Hy E]]. apply String.eqb_eq in E. now subst.
  - intro H. exists x. split; auto. apply String.eqb_refl.
Qed.

Lemma value_mem_In (x : value) (l : list value) :
  value_mem x l = true <-> In x l.
Proof.
  unfold value_mem. rewrite existsb_exists. split.
  - intros [y [Hy E]]. apply value_eqb_eq in E. now subst.
  - intro H. exists x. split; auto. now apply value_eqb_eq.
Qed.

Lemma has_dup_NoDup (l : list string) : has_dup l = false <-> NoDup l.
Proof.
  induction l as [| x t IH]; simpl.
  - split; auto. constructor.
  - rewrite orb_false_iff, IH. split.
    + intros [H1 H2]. constructor; auto.
      intro H. apply string_mem_In in H. congruence.
    + intro H. inversion H; subst. split; auto.
      destruct (string_mem x t) eqn:E; auto.
      apply string_mem_In in E. contradiction.
Qed.

(** ** The dataframe operations *)

Module DFFacts.
Import DF Spec.

Lemma rbind_ok {A B} (r : result A) (k : A -> result B) (b : B) :
  rbind r k = Ok b -> exists a, r = Ok a /\ k a = Ok b.
Proof. destruct r; simpl; intro H; [eauto | discriminate]. Qed.

Lemma columns_from_labels j hs rs : map fst (columns_from j hs rs) = hs.
Proof.
  revert j. induction hs as [| h t IH]; intro j; simpl; [| rewrite IH]; reflexivity.
Qed.

Lemma parse_columns c : frame_columns (parse c) = header c.
Proof. apply columns_from_labels. Qed.

Lemma select_cols_labels cs cols r :
  select_cols cs cols = Ok r -> map fst r = cs.
Proof.
  revert r. induction cs as [| c t IH]; simpl; intros r H.
  - now inversion H.
  - destruct (assoc c cols); [| discriminate].
    apply rbind_ok in H as [r' [Hr' E]]. inversion E; subst.
    simpl. now rewrite (IH _ Hr').
Qed.

Lemma getitems_ok cs f g :
  getitems cs f = Ok g ->
  frame_columns g = cs /\ index g = index f /\ index_name g = index_name f.
Proof.
  unfold getitems. destruct (has_dup cs); [discriminate |].
  intro H. apply rbind_ok in H as [cols [Hc E]]. inversion E; subst.
  unfold frame_columns. simpl. split; auto. eapply select_cols_labels; eauto.
Qed.

Lemma rename_ok m f g :
  rename m f = Ok g ->
  frame_columns g = map (rename_label m) (frame_columns f)
  /\ index g = index f /\ index_name g = index_name f.
Proof.
  unfold rename.
  destruct (has_dup _); [discriminate |].
  intro H. inversion H; subst. unfold frame_columns. simpl.
  rewrite !map_map. auto.
Qed.

Lemma take_columns ps f : frame_columns (take ps f) = frame_columns f.
Proof. unfold frame_columns, take. simpl. now rewrite map_map. Qed.

Lemma map_fst_filter {A} (p : string -> bool) (l : list (string * A)) :
  map fst (filter (fun nc => p (fst nc)) l) = filter p (map fst l).
Proof.
  induction l as [| [n v] t IH]; simpl; auto.
  destruct (p n); simpl; now rewrite IH.
Qed.

Lemma set_index_ok c f g :
  set_index c f = Ok g ->
  index_name g = Some c
  /\ getitem c f = Ok (index g)
  /\ frame_columns g = filter (fun x => negb (String.eqb x c)) (frame_columns f).
Proof.
  unfold set_index, getitem. destruct (assoc c (fcols f)) eqn:E; [| discriminate].
  intro H. inversion H; subst. simpl. repeat split.
  unfold frame_columns. simpl.
  apply (map_fst_filter (fun x => negb (String.eqb x c))).
Qed.

(** *** Sorting by index *)

Lemma insert_key_perm x l : Permutation (insert_key x l) (x :: l).
Proof.
  induction l as [| y t IH]; simpl; auto.
  destruct (value_leb (fst x) (fst y)); auto.
  rewrite IH. apply perm_swap.
Qed.

Lemma sort_keys_perm l : Permutation (sort_keys l) l.
Proof.
  induction l as [| x t IH]; simpl; auto.
  rewrite insert_key_perm. now constructor.
Qed.

Lemma insert_key_sorted x l : Sorted key_le l -> Sorted key_le (insert_key x l).
Proof.
  induction 1 as [| y t Hs IH Hd]; simpl.
  - repeat constructor.
  - destruct (value_leb (fst x) (fst y)) eqn:E.
    + constructor; [constructor; auto | constructor; exact E].
    + constructor; auto.
      apply value_leb_total in E.
      destruct t as [| z t']; simpl.
      * constructor. exact E.
      * destruct (value_leb (fst x) (fst z)); constructor; auto.
        now inversion Hd.
Qed.

Lemma sort_keys_sorted l : Sorted key_le (sort_keys l).
Proof.
  induction l as [| x t IH]; simpl; [constructor | now apply insert_key_sorted].
Qed.

Lemma combine_seq_nth (idx : list value) (s : nat) v p :
  In (v, p) (combine idx (seq s (length idx))) ->
  s <= p < s + length idx /\ nth (p - s) idx VNull = v.
Proof.
  revert s. induction idx as [| a t IH]; simpl; intros s H; [contradiction |].
  destruct H as [H | H].
  - inversion H; subst. rewrite Nat.sub_diag. split; [lia | reflexivity].
  - apply IH in H as [H1 H2]. split; [lia |].
    replace (p - s) with (S (p - S s)) by lia. exact H2.
Qed.

Lemma gather_keys (idx : list value) (l : list (value * nat)) :
  (forall v p, In (v, p) l -> nth p idx VNull = v) ->
  gather (map snd l) idx = map fst l.
Proof.
  unfold gather. induction l as [| [v p] t IH]; simpl; intro H; auto.
  rewrite (H v p) by auto. f_equal. apply IH. intros; apply H; auto.
Qed.

Lemma sort_index_index f :
  index (sort_index f) = map fst (sort_keys (combine (index f) (seq 0 (nrows f)))).
Proof.
  unfold sort_index, take. simpl. apply gather_keys.
  intros v p H.
  apply (Permutation_in _ (sort_keys_perm _)) in H.
  apply combine_seq_nth in H as [_ H]. now rewrite Nat.sub_0_r in H.
Qed.

Lemma combine_seq_fst (idx : list value) s :
  map fst (combine idx (seq s (length idx))) = idx.
Proof.
  revert s. induction idx as [| a t IH]; simpl; intro s; auto. now rewrite IH.
Qed.

Lemma sorted_map_fst l : Sorted key_le l -> Sorted value_le (map fst l).
Proof.
  induction 1 as [| x t Hs IH Hd]; simpl; constructor; auto.
  destruct Hd; simpl; constructor; auto.
Qed.

(** [sort_index] puts the index labels in ascending order and keeps
    them, each as often as before. *)
Lemma sort_index_sorted f :
  ascending (index (sort_index f))
  /\ Permutation (index (sort_index f)) (index f).
Proof.
  rewrite sort_index_index. split.
  - apply sorted_map_fst, sort_keys_sorted.
  - rewrite (sort_keys_perm _). unfold nrows. now rewrite combine_seq_fst.
Qed.


(** *** Selecting rows by label *)

Lemma positions_of_In l idx p :
  In p (positions_of l idx) <-> p < length idx /\ nth p idx VNull = l.
Proof.
  unfold positions_of. rewrite filter_In, in_seq, value_eqb_eq.
  split; intros [H1 H2]; split; auto; lia.
Qed.

Lemma loc_positions_In sel idx ps :
  loc_positions sel idx = Ok ps ->
  forall p, In p ps <-> p < length idx /\ In (nth p idx VNull) sel.
Proof.
  revert ps. induction sel as [| l t IH]; simpl; intros ps H p.
  - inversion H; subst. simpl. tauto.
  - destruct (positions_of l idx) as [| q qs] eqn:E; [discriminate |].
    apply rbind_ok in H as [r [Hr Hps]].
    assert (Eps : ps = positions_of l idx ++ r)
      by (rewrite E; now inversion Hps).
    rewrite Eps, in_app_iff, positions_of_In, (IH _ Hr p).
    split.
    + intros [[H1 H2] | [H1 H2]]; auto.
    + intros [H1 [H2 | H2]]; auto.
Qed.


Lemma frame_rows_take ps f : frame_rows (take ps f) = map (row_at f) ps.
Proof.
  unfold frame_rows, nrows.
  replace (length (index (take ps f))) with (length ps)
    by (unfold take, gather; simpl; now rewrite length_map).
  induction ps as [| p t IH]; simpl; auto.
  rewrite <- seq_shift, map_map. f_equal.
  - unfold row_at. simpl. now rewrite map_map.
  - rewrite <- IH. apply map_ext. intro i.
    unfold row_at. simpl. rewrite !map_map. reflexivity.
Qed.

Lemma frame_rows_In f r :
  In r (frame_rows f) <-> exists p, p < nrows f /\ r = row_at f p.
Proof.
  unfold frame_rows. rewrite in_map_iff. split.
  - intros [p [E H]]. apply in_seq in H. exists p. split; [lia | auto].
  - intros [p [H E]]. exists p. split; auto. apply in_seq. lia.
Qed.

(** [loc] keeps exactly the rows whose label is among those asked. *)
Lemma loc_rows sel f g :
  loc sel f = Ok g ->
  forall r, In r (frame_rows g) <-> In r (frame_rows f) /\ In (fst r) sel.
Proof.
  unfold loc. intro H. apply rbind_ok in H as [ps [Hps E]]. inversion E; subst.
  intro r. rewrite frame_rows_take, in_map_iff, frame_rows_In. split.
  - intros [p [<- Hp]]. apply (loc_positions_In _ _ _ Hps) in Hp as [H1 H2].
    split; [exists p; auto | exact H2].
  - intros [[p [H1 ->]] H2]. exists p. split; auto.
    apply (loc_positions_In _ _ _ Hps). auto.
Qed.

Lemma loc_ok sel f g :
  loc sel f = Ok g ->
  frame_columns g = frame_columns f /\ index_name g = index_name f.
Proof.
  unfold loc. intro H. apply rbind_ok in H as [ps [_ E]]. inversion E; subst.
  split; [apply take_columns | reflexivity].
Qed.

(** *** The maximum of a series *)

Lemma max_step_fold s : forall acc,
  let m := fold_left max_step s acc in
  (acc <> VNull -> m <> VNull /\ value_leb acc m = true)
  /\ (forall v, In v s -> v <> VNull -> m <> VNull /\ value_leb v m = true)
  /\ (m = acc \/ In m s).
Proof.
  induction s as [| x t IH]; intro acc; simpl.
  - repeat split; auto; try contradiction. apply value_leb_refl.
  - destruct (IH (max_step acc x)) as [H1 [H2 H3]].
    assert (Hx : x <> VNull -> max_step acc x <> VNull
                               /\ value_leb x (max_step acc x) = true).
    { intro Hx. unfold max_step.
      destruct x; try congruence; destruct acc; try (split; [discriminate | apply value_leb_refl]).
      all: match goal with |- context [if ?b then _ else _] => destruct b eqn:E end;
        split; try discriminate; try apply value_leb_refl;
        now apply value_leb_total. }
    assert (Ha : acc <> VNull -> max_step acc x <> VNull
                                 /\ value_leb acc (max_step acc x) = true).
    { intro Hacc. unfold max_step.
      destruct x; destruct acc; try congruence;
        try (split; [discriminate | apply value_leb_refl]).
      all: match goal with |- context [if ?b then _ else _] => destruct b eqn:E end;
        split; try discriminate; try apply value_leb_refl; auto. }
    split; [| split].
    + intro Hacc. destruct (Ha Hacc) as [Hn Hle].
      destruct (H1 Hn) as [Hm Hle']. split; auto.
      eapply value_leb_trans; eauto.
    + intros v [<- | Hv] Hnn.
      * destruct (Hx Hnn) as [Hn Hle]. destruct (H1 Hn) as [Hm Hle'].
        split; auto. eapply value_leb_trans; eauto.
      * now apply H2.
    + destruct H3 as [H3 | H3]; [| now right; right].
      rewrite H3. unfold max_step.
      destruct x; destruct acc; auto;
        match goal with |- context [if ?b then _ else _] => destruct b end; auto.
Qed.

(** [series_max] is the maximum. *)
Lemma series_max_is_maximum s : is_maximum (series_max s) s.
Proof.
  unfold series_max.
  destruct (max_step_fold s VNull) as [_ [H2 H3]].
  set (m := fold_left max_step s VNull) in *.
  destruct m eqn:E.
  - left. split; [discriminate |]. split.
    + destruct H3 as [H3 | H3]; [discriminate | exact H3].
    + intros v Hv Hn. now apply H2.
  - left. split; [discriminate |]. split.
    + destruct H3 as [H3 | H3]; [discriminate | exact H3].
    + intros v Hv Hn. now apply H2.
  - right. split; auto. intros v Hv.
    destruct v; auto; destruct (H2 _ Hv) as [Hc _]; try discriminate; congruence.
Qed.

Lemma map_len_ok s lens :
  map_len s = Ok lens ->
  exists strs, s = map VStr strs
               /\ lens = map (fun x => VInt (Z.of_nat (py_len x))) strs.
Proof.
  revert lens. induction s as [| v t IH]; simpl; intros lens H.
  - inversion H; subst. now exists [].
  - destruct v; try discriminate.
    apply rbind_ok in H as [r [Hr E]]. inversion E; subst.
    destruct (IH _ Hr) as [strs [-> ->]]. now exists (s :: strs).
Qed.

(** *** Rows under sorting and selection *)

Lemma combine_seq_snd (idx : list value) s :
  map snd (combine idx (seq s (length idx))) = seq s (length idx).
Proof.
  revert s. induction idx as [| a t IH]; simpl; intro s; auto. now rewrite IH.
Qed.

(** [sort_index] rearranges the rows and keeps every one of them. *)
Lemma sort_index_rows f : Permutation (frame_rows (sort_index f)) (frame_rows f).
Proof.
  unfold sort_index. rewrite frame_rows_take. unfold frame_rows.
  apply Permutation_map.
  rewrite (sort_keys_perm _). unfold nrows. now rewrite combine_seq_snd.
Qed.

Lemma sort_index_ok f :
  frame_columns (sort_index f) = frame_columns f
  /\ index_name (sort_index f) = index_name f.
Proof. split; [apply take_columns | reflexivity]. Qed.

Lemma gather_filter_from (f : value -> bool) (idx pre : list value) :
  map (fun p => nth p (pre ++ idx) VNull)
    (filter (fun p => f (nth p (pre ++ idx) VNull))
       (seq (length pre) (length idx)))
  = filter f idx.
Proof.
  revert pre. induction idx as [| a t IH]; intro pre; simpl; auto.
  rewrite nth_middle.
  specialize (IH (pre ++ [a])).
  rewrite length_app, <- app_assoc in IH. simpl in IH.
  rewrite Nat.add_1_r in IH.
  destruct (f a); simpl; [rewrite nth_middle |]; rewrite IH; reflexivity.
Qed.

Lemma gather_filter_seq (f : value -> bool) (idx : list value) :
  gather (filter (fun p => f (nth p idx VNull)) (seq 0 (length idx))) idx
  = filter f idx.
Proof. exact (gather_filter_from f idx []). Qed.

Lemma gather_app ps qs idx : gather (ps ++ qs) idx = gather ps idx ++ gather qs idx.
Proof. unfold gather. apply map_app. Qed.

(** The rows [loc] returns come label by label in the order of the
    labels asked. *)
Lemma loc_index sel f g :
  loc sel f = Ok g ->
  index g = flat_map (fun l => filter (fun v => value_eqb v l) (index f)) sel.
Proof.
  unfold loc. intro H. apply rbind_ok in H as [ps [Hps E]]. inversion E; subst.
  simpl. clear E. revert ps Hps.
  induction sel as [| l t IH]; simpl; intros ps H.
  - now inversion H.
  - destruct (positions_of l (index f)) as [| q qs] eqn:Eq; [discriminate |].
    apply rbind_ok in H as [r [Hr Hps]].
    assert (Eps : ps = positions_of l (index f) ++ r)
      by (rewrite Eq; now inversion Hps).
    rewrite Eps, gather_app, (IH _ Hr). f_equal.
    apply (gather_filter_seq (fun v => value_eqb v l)).
Qed.

Lemma filter_filter {A} (p q : A -> bool) (l : list A) :
  filter p (filter q l) = filter (fun x => q x && p x) l.
Proof.
  induction l as [| x t IH]; simpl; auto.
  destruct (q x); simpl; [destruct (p x) |]; now rewrite IH.
Qed.

Lemma filter_all {A} (l : list A) : filter (fun _ => true) l = l.
Proof. induction l as [| x t IH]; simpl; [| rewrite IH]; reflexivity. Qed.

End DFFacts.

(** ** The loaders *)

Module LoaderFacts.
Import DF Datasets GenericCSVDataset Spec SpecLoad DFFacts.

(** *** Running the method monad *)

Lemma bind_ok {A B} (m : M A) (k : A -> M B) s s' b :
  bind m k s = (s', Ok b) ->
  exists a s1, m s = (s1, Ok a) /\ k a s1 = (s', Ok b).
Proof.
  unfold bind. destruct (m s) as [s1 [a | e]]; intro H; [eauto | discriminate].
Qed.

Lemma lift_ok {A} (r : result A) s s' a :
  lift r s = (s', Ok a) -> s' = s /\ r = Ok a.
Proof. unfold lift. intro H. now inversion H. Qed.

Lemma get_self_ok s s' a : get_self s = (s', Ok a) -> s' = s /\ a = s.
Proof. unfold get_self. intro H. now inversion H. Qed.

Lemma assign_ok f s s' u : assign f s = (s', Ok u) -> s' = f s.
Proof. unfold assign. intro H. now inversion H. Qed.

Lemma ret_ok {A} (a b : A) s s' : ret a s = (s', Ok b) -> s' = s /\ b = a.
Proof. unfold ret. intro H. now inversion H. Qed.

(** *** Methods driven by the configuration *)

Lemma blank_overlay t s : blank (overlay t s) = blank s.
Proof. reflexivity. Qed.

Lemma blank_blank s : blank (blank s) = blank s.
Proof. reflexivity. Qed.

Lemma or_else_assoc {A} (x y z : option A) :
  or_else x (or_else y z) = or_else (or_else x y) z.
Proof. now destruct x. Qed.

Lemma or_else_idem {A} (x y : option A) : or_else x (or_else x y) = or_else x y.
Proof. now destruct x. Qed.

Lemma overlay_assoc u t s : overlay u (overlay t s) = overlay (overlay u t) s.
Proof. unfold overlay. simpl. now rewrite !or_else_assoc. Qed.

Lemma overlay_idem t s : overlay t (overlay t s) = overlay t s.
Proof. unfold overlay. simpl. now rewrite !or_else_idem. Qed.

Lemma overlay_blank s : overlay (blank s) s = s.
Proof. now destruct s. Qed.

Lemma cd_ret {A} (a : A) : config_driven (ret a).
Proof. intro s. unfold ret. simpl. now rewrite overlay_blank. Qed.

Lemma cd_lift {A} (r : result A) : config_driven (lift r).
Proof. intro s. unfold lift. simpl. now rewrite overlay_blank. Qed.

Lemma cd_raise {A} (e : exn) : config_driven (@raise A e).
Proof. intro s. unfold raise. simpl. now rewrite overlay_blank. Qed.

Lemma cd_set_data x : config_driven (assign (set_data (Some x))).
Proof. intro s. now destruct s. Qed.

Lemma cd_set_max_len x : config_driven (assign (set_max_len (Some x))).
Proof. intro s. now destruct s. Qed.

Lemma cd_set_both d p :
  config_driven
    (assign (fun s => set_properties (Some p) (set_data (Some d) s))).
Proof. intro s. now destruct s. Qed.

Lemma cd_bind {A B} (m : M A) (k : A -> M B) :
  config_driven m -> (forall a, config_driven (k a)) -> config_driven (bind m k).
Proof.
  intros Hm Hk s. destruct (Hm s) as [E Hb].
  unfold bind. rewrite E.
  destruct (m (blank s)) as [t [a | e]] eqn:Em; simpl in *.
  - destruct (Hk a (overlay t s)) as [E1 _]. rewrite E1, blank_overlay.
    destruct (Hk a t) as [E2 Hb2]. rewrite Hb in E2, Hb2.
    rewrite E2. simpl. rewrite overlay_assoc. split; auto.
  - auto.
Qed.

Lemma cd_get_self {B} (k : dataset -> M B) :
  (forall s, k s = k (blank s)) -> (forall c, config_driven (k c)) ->
  config_driven (bind get_self k).
Proof.
  intros Hc Hk s. unfold bind, get_self.
  rewrite (Hc s). rewrite (Hc (blank s)), blank_blank.
  apply Hk.
Qed.

(** Calling a method driven by the configuration a second time changes
    nothing and returns the same. *)
Lemma cd_twice {A} (m : M A) s : config_driven m -> m (fst (m s)) = m s.
Proof.
  intro H. destruct (H s) as [E _].
  rewrite E at 1. simpl.
  destruct (H (overlay (fst (m (blank s))) s)) as [E' _].
  rewrite E', blank_overlay, overlay_idem. now rewrite <- E.
Qed.

Ltac cd_step :=
  first [ apply cd_ret | apply cd_lift | apply cd_raise | apply cd_set_data
        | apply cd_set_max_len | apply cd_set_both
        | apply cd_get_self; [intros [? ? ? ? ? ? ? ? ?]; reflexivity | intro]
        | apply cd_bind; [| intro] ].

Lemma cd_compute_max_len columns length_column data :
  config_driven (compute_max_len columns length_column data).
Proof.
  unfold compute_max_len.
  destruct (truthy_str length_column); [repeat cd_step |].
  destruct columns as [| c [| c' t]]; repeat cd_step.
Qed.

Lemma cd_load_csv fs columns length_column return_remaining :
  config_driven (_load_csv fs columns length_column return_remaining).
Proof.
  unfold _load_csv.
  cd_step. cd_step; [cd_step |]. cd_step; [apply cd_compute_max_len |].
  cd_step; [cd_step |]. cd_step; [| cd_step].
  destruct return_remaining; repeat cd_step.
Qed.

Lemma cd_generic_load fs columns length_column :
  config_driven (GenericCSVDataset.load fs columns length_column).
Proof.
  unfold GenericCSVDataset.load. cd_step; [apply cd_load_csv | cd_step].
Qed.

Lemma cd_chembl_load fs columns :
  config_driven (ChEMBLApprovedDrugsPhyschem.load fs columns).
Proof.
  unfold ChEMBLApprovedDrugsPhyschem.load.
  cd_step; [apply cd_load_csv |]. repeat cd_step.
Qed.

Lemma cd_lipophilicity_load fs columns :
  config_driven (MoleculeNetLipophilicityPhyschem.load fs columns).
Proof.
  unfold MoleculeNetLipophilicityPhyschem.load.
  cd_step; [apply cd_load_csv |]. repeat cd_step.
Qed.

Lemma cd_esol_load fs columns :
  config_driven (MoleculeNetESOLPhyschem.load fs columns).
Proof.
  unfold MoleculeNetESOLPhyschem.load.
  cd_step; [apply cd_load_csv |]. repeat cd_step.
Qed.

Lemma cd_freesolv_load fs columns :
  config_driven (MoleculeNetFreeSolvPhyschem.load fs columns).
Proof.
  unfold MoleculeNetFreeSolvPhyschem.load.
  cd_step; [apply cd_load_csv |]. repeat cd_step.
Qed.

Lemma cd_zinc_load fs columns length_column :
  config_driven (ZINC15TestSplit.load fs columns length_column).
Proof.
  unfold ZINC15TestSplit.load. cd_step; [apply cd_load_csv | cd_step].
Qed.

Lemma cd_load_method v fs a : config_driven (load_method v fs a).
Proof.
  destruct v; simpl;
    try (destruct (arg_length_column a); [apply cd_raise |]).
  - apply cd_chembl_load.
  - apply cd_lipophilicity_load.
  - apply cd_esol_load.
  - apply cd_freesolv_load.
  - apply cd_zinc_load.
  - apply cd_generic_load.
Qed.

(** *** What a successful [_load_csv] went through *)

Lemma load_csv_inv fs cols lc rr s s' cleaned other :
  _load_csv fs cols lc rr s = (s', Ok (cleaned, other)) ->
  exists t data,
    indexed_table fs s = Ok t
    /\ select_rows s t = Ok data
    /\ compute_max_len (as_list cols) lc data s = (s', Ok tt)
    /\ getitems (as_list cols) data = Ok cleaned
    /\ (if rr
        then exists o,
            getitems (remain_columns (as_list cols) lc data) data = Ok o
            /\ other = Some o
        else other = None).
Proof.
  unfold _load_csv. intro H.
  apply bind_ok in H as [self [s1 [H0 H]]]. apply get_self_ok in H0 as [-> ->].
  apply bind_ok in H as [data [s1 [H0 H]]]. apply lift_ok in H0 as [-> Hd].
  apply rbind_ok in Hd as [t [Ht Hd]].
  apply bind_ok in H as [[] [s1 [Hm H]]].
  apply bind_ok in H as [cl [s2 [H0 H]]]. apply lift_ok in H0 as [-> Hc].
  apply bind_ok in H as [ot [s3 [Ho H]]].
  apply ret_ok in H as [-> E]. inversion E; subst.
  exists t, data. repeat (split; [assumption |]).
  destruct rr.
  - apply bind_ok in Ho as [o [s4 [H0 H]]]. apply lift_ok in H0 as [-> Hg].
    apply ret_ok in H as [-> ->]. eauto.
  - now apply ret_ok in Ho as [-> ->].
Qed.

Lemma compute_max_len_inv cols lc data s s' u :
  compute_max_len cols lc data s = (s', Ok u) ->
  match truthy_str lc with
  | Some c =>
      exists ser, getitem c data = Ok ser
                  /\ s' = set_max_len (Some (series_max ser)) s
  | None =>
      match cols with
      | [c] =>
          exists ser lens,
            getitem c data = Ok ser /\ map_len ser = Ok lens
            /\ s' = set_max_len (Some (series_max lens)) s
      | _ => s' = s
      end
  end.
Proof.
  unfold compute_max_len. intro H.
  destruct (truthy_str lc) as [c |].
  - apply bind_ok in H as [ser [s1 [H0 H]]]. apply lift_ok in H0 as [-> Hg].
    apply assign_ok in H. eauto.
  - destruct cols as [| c [| c' rest]].
    + now apply ret_ok in H.
    + apply bind_ok in H as [ser [s1 [H0 H]]]. apply lift_ok in H0 as [-> Hg].
      apply bind_ok in H as [lens [s1 [H0 H]]]. apply lift_ok in H0 as [-> Hl].
      apply assign_ok in H. eauto.
    + now apply ret_ok in H.
Qed.

Lemma max_len_config cols lc data s s' r :
  compute_max_len cols lc data s = (s', r) ->
  data_path s' = data_path s /\ index_col s' = index_col s
  /\ index_selection s' = index_selection s
  /\ properties_cols s' = properties_cols s
  /\ properties s' = properties s /\ Datasets.data s' = Datasets.data s.
Proof.
  unfold compute_max_len, bind, lift, assign, ret. intro H.
  destruct (truthy_str lc).
  - destruct (getitem s0 data); inversion H; subst; simpl; auto 10.
  - destruct cols as [| c [| c' rest]]; try (inversion H; subst; auto 10; fail).
    destruct (getitem c data); [| inversion H; subst; auto 10].
    destruct (map_len a); inversion H; subst; simpl; auto 10.
Qed.

(** The labels of the table [_load_csv] works on: the header of the
    file, without the index column when there is one. *)
Lemma indexed_table_inv fs s t :
  indexed_table fs s = Ok t ->
  exists path file,
    data_path s = Some path /\ fs path = Some file
    /\ match truthy_str (index_col s) with
       | Some c =>
           exists k, set_index c (parse file) = Ok k /\ t = sort_index k
       | None => t = set_index_name "index" (parse file)
       end.
Proof.
  unfold indexed_table, read_csv. intro H.
  apply rbind_ok in H as [raw [Hr H]].
  destruct (data_path s) as [path |]; [| discriminate].
  destruct (fs path) as [file |] eqn:Ef; [| discriminate].
  inversion Hr; subst. exists path, file. repeat split; auto.
  destruct (truthy_str (index_col s)) as [c |].
  - apply rbind_ok in H as [k [Hk E]]. inversion E; subst. eauto.
  - now inversion H.
Qed.

Lemma select_rows_inv s t data :
  select_rows s t = Ok data ->
  match truthy_list (index_selection s) with
  | Some sel => loc sel t = Ok data
  | None => data = t
  end.
Proof.
  unfold select_rows. destruct (truthy_list (index_selection s)); auto.
  intro H. now inversion H.
Qed.

Lemma select_rows_ok s t data :
  select_rows s t = Ok data ->
  frame_columns data = frame_columns t /\ index_name data = index_name t.
Proof.
  intro H. apply select_rows_inv in H.
  destruct (truthy_list (index_selection s)).
  - now apply loc_ok in H.
  - now subst.
Qed.

Lemma loaded_labels fs s t data path file :
  data_path s = Some path -> fs path = Some file ->
  indexed_table fs s = Ok t -> select_rows s t = Ok data ->
  frame_columns data
  = filter (fun x => negb (names (index_col s) x)) (header file).
Proof.
  intros Hp Hf Ht Hd.
  apply select_rows_ok in Hd as [-> _].
  apply indexed_table_inv in Ht as [path' [file' [Hp' [Hf' Ht]]]].
  assert (path' = path) by congruence. subst path'.
  assert (file' = file) by congruence. subst file'.
  unfold names. destruct (truthy_str (index_col s)) as [c |].
  - destruct Ht as [k [Hk ->]].
    destruct (sort_index_ok k) as [-> _].
    apply set_index_ok in Hk as [_ [_ ->]]. now rewrite parse_columns.
  - subst t. simpl. rewrite filter_all.
    unfold set_index_name, frame_columns. simpl. apply columns_from_labels.
Qed.

End LoaderFacts.

(** ** The CSV loader: [max_len] *)

Module MaxLen.
Import DF Datasets GenericCSVDataset Spec SpecLoad DFFacts LoaderFacts.

(** C2.  After a successful [_load_csv], with [data] the table read,
    indexed and restricted to the selected rows: when a length column is
    supplied, [max_len] is the maximum of that column of [data];
    otherwise, when one primary column is requested, that column holds
    strings and [max_len] is the maximum of their character lengths. *)
Theorem load_csv_max_len fs columns length_column return_remaining self self' r :
  _load_csv fs columns length_column return_remaining self = (self', Ok r) ->
  exists t data,
    indexed_table fs self = Ok t
    /\ select_rows self t = Ok data
    /\ (forall lc, truthy_str length_column = Some lc ->
        exists ser m,
          getitem lc data = Ok ser
          /\ max_len self' = Some m /\ is_maximum m ser)
    /\ (truthy_str length_column = None ->
        forall c, as_list columns = [c] ->
        exists strs m,
          getitem c data = Ok (map VStr strs)
          /\ max_len self' = Some m
          /\ is_maximum m (map (fun x => VInt (Z.of_nat (py_len x))) strs)).
Proof.
  destruct r as [cleaned other]. intro H.
  apply load_csv_inv in H as [t [data [Ht [Hd [Hm _]]]]].
  exists t, data. repeat (split; [assumption |]).
  apply compute_max_len_inv in Hm. split.
  - intros lc E. rewrite E in Hm. destruct Hm as [ser [Hg ->]].
    exists ser, (series_max ser). repeat split; auto.
    apply series_max_is_maximum.
  - intros E c Ec. rewrite E, Ec in Hm.
    destruct Hm as [ser [lens [Hg [Hl ->]]]].
    apply map_len_ok in Hl as [strs [-> ->]].
    exists strs, (series_max (map (fun x => VInt (Z.of_nat (py_len x))) strs)).
    repeat split; auto. apply series_max_is_maximum.
Qed.

Lemma load_csv_max_len_witness :
  exists self' r,
    _load_csv Samples.disk (ColList ["smiles"]) None true Samples.plain
    = (self', Ok r)
    /\ exists t data,
      indexed_table Samples.disk Samples.plain = Ok t
      /\ select_rows Samples.plain t = Ok data
      /\ (forall lc, truthy_str None = Some lc ->
          exists ser m,
            getitem lc data = Ok ser
            /\ max_len self' = Some m /\ is_maximum m ser)
      /\ (truthy_str None = None ->
          forall c, as_list (ColList ["smiles"]) = [c] ->
          exists strs m,
            getitem c data = Ok (map VStr strs)
            /\ max_len self' = Some m
            /\ is_maximum m
                 (map (fun x => VInt (Z.of_nat (py_len x))) strs)).
Proof.
  eexists. eexists. split.
  - vm_compute. reflexivity.
  - eapply (load_csv_max_len Samples.disk (ColList ["smiles"]) None true
              Samples.plain).
    vm_compute. reflexivity.
Defined.

(** With [exp] as length column, [max_len] is the greatest [exp]. *)
Example load_csv_max_len_length_column :
  max_len (fst (_load_csv Samples.disk (ColList ["smiles"]) (Some "exp") true
                  Samples.plain)) = Some (VInt 9).
Proof. reflexivity. Qed.

(** On the sample file the longest SMILES string is [CCCC]. *)
Example load_csv_max_len_sample :
  max_len (fst (_load_csv Samples.disk (ColList ["smiles"]) None true
                  Samples.plain)) = Some (VInt 4).
Proof. reflexivity. Qed.

(** Against C3 as it is worded: with two primary columns and no length
    column the loader returns its tables and leaves the object as it
    was. *)
Lemma load_csv_two_columns_no_error :
  let out := _load_csv Samples.disk (ColList ["smiles"; "exp"]) None true
               Samples.plain in
  1 < length (as_list (ColList ["smiles"; "exp"]))
  /\ (forall e, snd out <> Raise e)
  /\ fst out = Samples.plain.
Proof.
  vm_compute. split; [lia |]. split; [discriminate | reflexivity].
Qed.

(** C3, as the code has it.  With more than one primary column and no
    length column, [_load_csv] does not raise on that account: it skips
    the [max_len] step, leaves the object as it was, and its outcome is
    that of reading the table and selecting the columns. *)
Theorem load_csv_many_columns fs columns length_column return_remaining self :
  truthy_str length_column = None ->
  1 < length (as_list columns) ->
  let out := _load_csv fs columns length_column return_remaining self in
  fst out = self
  /\ snd out
     = rbind (rbind (indexed_table fs self) (select_rows self)) (fun data =>
         rbind (getitems (as_list columns) data) (fun cleaned_data =>
           if return_remaining
           then rbind (getitems (remain_columns (as_list columns)
                                   length_column data) data)
                  (fun other_data => Ok (cleaned_data, Some other_data))
           else Ok (cleaned_data, None))).
Proof.
  intros E Hn. unfold _load_csv, compute_max_len, bind, get_self, lift, ret.
  rewrite E.
  destruct (as_list columns) as [| c [| c' rest]]; simpl in Hn; try lia.
  destruct (rbind (indexed_table fs self) (select_rows self)) as [data |];
    simpl; auto.
  destruct (getitems (c :: c' :: rest) data) as [cleaned |]; simpl; auto.
  destruct return_remaining; simpl; auto.
  destruct (getitems _ data); simpl; auto.
Qed.

Lemma load_csv_many_columns_witness :
  truthy_str None = None
  /\ 1 < length (as_list (ColList ["smiles"; "exp"]))
  /\ let out := _load_csv Samples.disk (ColList ["smiles"; "exp"]) None true
                  Samples.plain in
     fst out = Samples.plain
     /\ snd out
        = rbind (rbind (indexed_table Samples.disk Samples.plain)
                   (select_rows Samples.plain)) (fun data =>
            rbind (getitems (as_list (ColList ["smiles"; "exp"])) data)
              (fun cleaned_data =>
                 rbind (getitems (remain_columns
                                    (as_list (ColList ["smiles"; "exp"]))
                                    None data) data)
                   (fun other_data => Ok (cleaned_data, Some other_data)))).
Proof.
  split; [reflexivity |]. split; [simpl; lia |].
  apply (load_csv_many_columns Samples.disk (ColList ["smiles"; "exp"]) None
           true Samples.plain); [reflexivity | simpl; lia].
Defined.

End MaxLen.

(** ** The CSV loader: the two tables and their rows *)

Module Tables.
Import DF Datasets GenericCSVDataset Spec SpecLoad DFFacts LoaderFacts.

(** Against C6 as it is worded: with [id] as index column the
    companion table holds [exp] only,
    while the columns of the file that are neither primary nor the
    length column are [exp] and [id]. *)
Lemma companion_lacks_index_column :
  exists cleaned other,
    snd (_load_csv Samples.disk (ColList ["smiles"]) None true Samples.keyed_all)
    = Ok (cleaned, Some other)
    /\ frame_columns other = ["exp"]
    /\ frame_columns other
       <> filter (fun x => negb (string_mem x ["smiles"]) && negb (names None x))
            (header Samples.lipophilicity_csv).
Proof.
  eexists. eexists. split; [vm_compute; reflexivity |].
  split; [reflexivity | vm_compute; discriminate].
Qed.

(** C6, as the code has it.  After a successful [_load_csv] on [file]:
    with [return_remaining] the second table is present and its labels
    are those of the header, in the order of the header, that are not
    primary, not the length column and not the index column; without
    [return_remaining] the second table is [None]. *)
Theorem load_csv_companion fs columns length_column return_remaining
  self self' cleaned other :
  _load_csv fs columns length_column return_remaining self
  = (self', Ok (cleaned, other)) ->
  exists path file,
    data_path self = Some path /\ fs path = Some file
    /\ (return_remaining = true ->
        exists o,
          other = Some o
          /\ index o = index cleaned
          /\ frame_columns o
             = filter (fun x => negb (string_mem x (as_list columns))
                                && negb (names length_column x)
                                && negb (names (index_col self) x))
                 (header file))
    /\ (return_remaining = false -> other = None).
Proof.
  intro H. apply load_csv_inv in H as [t [data [Ht [Hd [_ [Hc Ho]]]]]].
  destruct (indexed_table_inv _ _ _ Ht) as [path [file [Hp [Hf _]]]].
  exists path, file. repeat (split; [assumption |]).
  pose proof (loaded_labels _ _ _ _ _ _ Hp Hf Ht Hd) as Hl.
  split; intro E; subst return_remaining.
  - destruct Ho as [o [Hg ->]]. exists o. split; [reflexivity |].
    apply getitems_ok in Hg as [Hg [Hi _]].
    apply getitems_ok in Hc as [_ [Hi' _]].
    split; [congruence |].
    rewrite Hg. unfold remain_columns.
    destruct (truthy_str length_column) as [lc |] eqn:El;
      rewrite Hl, filter_filter; apply filter_ext; intro x;
      unfold names; rewrite El; simpl; rewrite ?orb_false_r;
      destruct (string_mem x (as_list columns)),
        (truthy_str (index_col self)) as [c |]; simpl;
      repeat match goal with
        | |- context [String.eqb ?a ?b] => destruct (String.eqb a b)
        end; reflexivity.
  - exact Ho.
Qed.

Lemma load_csv_companion_witness :
  exists self' cleaned other,
    _load_csv Samples.disk (ColList ["smiles"]) None true Samples.keyed_all
    = (self', Ok (cleaned, other))
    /\ exists path file,
      data_path Samples.keyed_all = Some path /\ Samples.disk path = Some file
      /\ (true = true ->
          exists o,
            other = Some o
            /\ index o = index cleaned
            /\ frame_columns o
               = filter (fun x => negb (string_mem x (as_list (ColList ["smiles"])))
                                  && negb (names None x)
                                  && negb (names (index_col Samples.keyed_all) x))
                   (header file))
      /\ (true = false -> other = None).
Proof.
  eexists. eexists. eexists. split.
  - vm_compute. reflexivity.
  - eapply (load_csv_companion Samples.disk (ColList ["smiles"]) None true
              Samples.keyed_all).
    vm_compute. reflexivity.
Defined.

(** Against C7 as it is worded: keyed by [id] with the selection
    [7, 3], the rows come as 7, 3. *)
Lemma selection_order_not_ascending :
  exists cleaned other,
    snd (_load_csv Samples.disk (ColList ["smiles"]) None true Samples.keyed_7_3)
    = Ok (cleaned, other)
    /\ index cleaned = [VInt 7; VInt 3]
    /\ ~ ascending (index cleaned).
Proof.
  eexists. eexists. split; [vm_compute; reflexivity |].
  split; [reflexivity |].
  simpl. intro H. inversion H as [| a l Hs Hd]; subst.
  inversion Hd as [| b l' Hle]; subst. discriminate Hle.
Qed.

(** C7, as the code has it.  After a successful [_load_csv], with [t]
    the table read and indexed and [data] the table the rows are
    selected from it:
    - with an index column [c], [t] is indexed by [c]: its rows are the
      rows of the file keyed by [c], rearranged so that the index is
      ascending; without one, the index is the default one and is
      named ["index"];
    - with an index selection, the rows of [data] are exactly the rows
      of [t] whose index label is selected, and they come label by
      label in the order of the selection; without one, [data] is [t];
    - the table returned has the index of [data]. *)
Theorem load_csv_index fs columns length_column return_remaining
  self self' cleaned other :
  _load_csv fs columns length_column return_remaining self
  = (self', Ok (cleaned, other)) ->
  exists path file t data,
    data_path self = Some path /\ fs path = Some file
    /\ indexed_table fs self = Ok t
    /\ select_rows self t = Ok data
    /\ index cleaned = index data
    /\ index_name cleaned = index_name t
    /\ (forall c, truthy_str (index_col self) = Some c ->
        exists k,
          set_index c (parse file) = Ok k
          /\ getitem c (parse file) = Ok (index k)
          /\ index_name t = Some c
          /\ ascending (index t)
          /\ Permutation (frame_rows t) (frame_rows k))
    /\ (truthy_str (index_col self) = None ->
        index_name t = Some "index"
        /\ index t = range_index (length (records file)))
    /\ (forall sel, truthy_list (index_selection self) = Some sel ->
        (forall r, In r (frame_rows data)
                   <-> In r (frame_rows t) /\ In (fst r) sel)
        /\ index data
           = flat_map (fun l => filter (fun v => value_eqb v l) (index t)) sel)
    /\ (truthy_list (index_selection self) = None -> data = t).
Proof.
  intro H. apply load_csv_inv in H as [t [data [Ht [Hd [_ [Hc _]]]]]].
  destruct (indexed_table_inv _ _ _ Ht) as [path [file [Hp [Hf Hi]]]].
  exists path, file, t, data. repeat (split; [assumption |]).
  apply getitems_ok in Hc as [_ [Hci Hcn]].
  destruct (select_rows_ok _ _ _ Hd) as [_ Hn].
  split; [assumption |]. split; [congruence |].
  apply select_rows_inv in Hd.
  split; [| split; [| split]].
  - intros c E. rewrite E in Hi. destruct Hi as [k [Hk ->]].
    exists k. split; [assumption |].
    destruct (set_index_ok _ _ _ Hk) as [Hkn [Hkg _]].
    split; [assumption |].
    split; [now destruct (sort_index_ok k) as [_ ->] |].
    split; [apply sort_index_sorted | apply sort_index_rows].
  - intro E. rewrite E in Hi. subst t. split; reflexivity.
  - intros sel E. rewrite E in Hd. split.
    + now apply loc_rows.
    + now apply loc_index.
  - intro E. now rewrite E in Hd.
Qed.

Lemma load_csv_index_witness :
  exists self' cleaned other,
    _load_csv Samples.disk (ColList ["smiles"]) None true Samples.keyed
    = (self', Ok (cleaned, other))
    /\ exists path file t data,
      data_path Samples.keyed = Some path /\ Samples.disk path = Some file
      /\ indexed_table Samples.disk Samples.keyed = Ok t
      /\ select_rows Samples.keyed t = Ok data
      /\ index cleaned = index data
      /\ index_name cleaned = index_name t
      /\ (forall c, truthy_str (index_col Samples.keyed) = Some c ->
          exists k,
            set_index c (parse file) = Ok k
            /\ getitem c (parse file) = Ok (index k)
            /\ index_name t = Some c
            /\ ascending (index t)
            /\ Permutation (frame_rows t) (frame_rows k))
      /\ (truthy_str (index_col Samples.keyed) = None ->
          index_name t = Some "index"
          /\ index t = range_index (length (records file)))
      /\ (forall sel, truthy_list (index_selection Samples.keyed) = Some sel ->
          (forall r, In r (frame_rows data)
                     <-> In r (frame_rows t) /\ In (fst r) sel)
          /\ index data
             = flat_map (fun l => filter (fun v => value_eqb v l) (index t)) sel)
      /\ (truthy_list (index_selection Samples.keyed) = None -> data = t).
Proof.
  eexists. eexists. eexists. split.
  - vm_compute. reflexivity.
  - eapply (load_csv_index Samples.disk (ColList ["smiles"]) None true
              Samples.keyed).
    vm_compute. reflexivity.
Defined.

(** The selection [3, 7] over the index values 1, 3, 5, 7 yields the
    rows 3 and 7. *)
Example selection_3_7 :
  option_map index
    (match indexed_table Samples.disk Samples.keyed with
     | Ok t => Some t
     | Raise _ => None
     end) = Some [VInt 1; VInt 3; VInt 5; VInt 7]
  /\ exists cleaned other,
    snd (_load_csv Samples.disk (ColList ["smiles"]) None true Samples.keyed)
    = Ok (cleaned, other)
    /\ frame_rows cleaned = [(VInt 3, [VStr "C"]); (VInt 7, [VStr "CCO"])].
Proof.
  split; [reflexivity |].
  eexists. eexists. split; [vm_compute; reflexivity | reflexivity].
Qed.

End Tables.

(** ** The dataset classes *)

Module Descriptors.
Import DF Datasets GenericCSVDataset Spec SpecLoad DFFacts LoaderFacts.

Lemma load_csv_config fs cols lc rr s s' r :
  _load_csv fs cols lc rr s = (s', Ok r) ->
  properties_cols s' = properties_cols s /\ properties s' = properties s.
Proof.
  destruct r as [cleaned other]. intro H.
  apply load_csv_inv in H as [t [data [_ [_ [Hm _]]]]].
  apply max_len_config in Hm. tauto.
Qed.

Lemma lipophilicity_load_eq :
  MoleculeNetLipophilicityPhyschem.load = renaming_load ["exp"].
Proof. reflexivity. Qed.

Lemma esol_load_eq :
  MoleculeNetESOLPhyschem.load
  = renaming_load ["measured log solubility in mols per litre"].
Proof. reflexivity. Qed.

Lemma freesolv_load_eq : MoleculeNetFreeSolvPhyschem.load = renaming_load ["y"].
Proof. reflexivity. Qed.

Lemma generic_load_inv fs cols lc s s' :
  GenericCSVDataset.load fs cols lc s = (s', Ok tt) ->
  exists s1 cleaned other,
    _load_csv fs cols lc true s = (s1, Ok (cleaned, other))
    /\ s' = set_data (Some cleaned) s1.
Proof.
  unfold GenericCSVDataset.load. intro H.
  apply bind_ok in H as [[cleaned other] [s1 [H0 H]]].
  apply assign_ok in H. eauto.
Qed.

Lemma zinc_load_inv fs cols lc s s' :
  ZINC15TestSplit.load fs cols lc s = (s', Ok tt) ->
  exists s1 cleaned,
    _load_csv fs cols lc false s = (s1, Ok (cleaned, None))
    /\ s' = set_data (Some cleaned) s1.
Proof.
  unfold ZINC15TestSplit.load. intro H.
  apply bind_ok in H as [[cleaned other] [s1 [H0 H]]].
  apply assign_ok in H.
  pose proof H0 as H1. apply load_csv_inv in H1 as [_ [_ [_ [_ [_ [_ ->]]]]]].
  eauto.
Qed.

Lemma chembl_load_inv fs cols s s' :
  ChEMBLApprovedDrugsPhyschem.load fs cols s = (s', Ok tt) ->
  exists s1 cleaned other pc p,
    _load_csv fs cols None true s = (s1, Ok (cleaned, Some other))
    /\ properties_cols s = Some pc
    /\ getitems pc other = Ok p
    /\ s' = set_properties (Some p) (set_data (Some cleaned) s1).
Proof.
  unfold ChEMBLApprovedDrugsPhyschem.load. intro H.
  apply bind_ok in H as [[cleaned other] [s1 [H0 H]]].
  apply bind_ok in H as [self [s2 [H1 H]]]. apply get_self_ok in H1 as [-> ->].
  apply bind_ok in H as [p [s2 [H1 H]]]. apply lift_ok in H1 as [-> Hp].
  apply assign_ok in H.
  destruct (load_csv_config _ _ _ _ _ _ _ H0) as [Hpc _].
  simpl in Hp. unfold subscript in Hp.
  destruct other as [other |]; [| discriminate].
  destruct (properties_cols s1) as [pc |] eqn:E; [| discriminate].
  exists s1, cleaned, other, pc, p. repeat split; auto; congruence.
Qed.

Lemma renaming_load_inv orig fs cols s s' :
  renaming_load orig fs cols s = (s', Ok tt) ->
  exists s1 cleaned other c0 d pc renamed p,
    _load_csv fs cols None true s = (s1, Ok (cleaned, Some other))
    /\ first_item cols = Ok c0
    /\ rename (dict_of [(c0, "canonical_smiles")]) cleaned = Ok d
    /\ properties_cols s = Some pc
    /\ rename (dict_of (combine orig pc)) other = Ok renamed
    /\ getitems pc renamed = Ok p
    /\ s' = set_properties (Some p) (set_data (Some d) s1).
Proof.
  unfold renaming_load. intro H.
  apply bind_ok in H as [[cleaned other] [s1 [H0 H]]].
  apply bind_ok in H as [c0 [s2 [H1 H]]]. apply lift_ok in H1 as [-> Hc].
  apply bind_ok in H as [d [s2 [H1 H]]]. apply lift_ok in H1 as [-> Hd].
  apply bind_ok in H as [self [s2 [H1 H]]]. apply get_self_ok in H1 as [-> ->].
  apply bind_ok in H as [renamed [s2 [H1 H]]]. apply lift_ok in H1 as [-> Hr].
  apply bind_ok in H as [p [s2 [H1 H]]]. apply lift_ok in H1 as [-> Hp].
  apply assign_ok in H.
  destruct (load_csv_config _ _ _ _ _ _ _ H0) as [Hpc _].
  simpl in Hd, Hr, Hp. unfold rename_properties in Hr. unfold subscript in Hp.
  destruct other as [other |]; [| discriminate].
  destruct (properties_cols s1) as [pc |] eqn:E; [| discriminate].
  exists s1, cleaned, other, c0, d, pc, renamed, p.
  repeat split; auto; congruence.
Qed.

(** What [data] and [properties] carry after a successful [load], for
    every class and every form of the [columns] argument. *)
Lemma load_labels v fs a s s' :
  load_method v fs a s = (s', Ok tt) ->
  exists d,
    data s' = Some d
    /\ frame_columns d = expected_labels v (requested v a)
    /\ if has_properties v
       then exists p pc,
           properties s' = Some p /\ properties_cols s' = Some pc
           /\ frame_columns p = pc
           /\ index p = index d /\ index_name p = index_name d
       else properties s' = properties s.
Proof.
  assert (Hren : forall orig cols,
             renaming_load orig fs cols s = (s', Ok tt) ->
             exists d,
               data s' = Some d
               /\ frame_columns d
                  = match first_item cols with
                    | Ok c0 => map (rename_label [(c0, "canonical_smiles")])
                                 (as_list cols)
                    | Raise _ => as_list cols
                    end
               /\ exists p pc,
                 properties s' = Some p /\ properties_cols s' = Some pc
                 /\ frame_columns p = pc
                 /\ index p = index d /\ index_name p = index_name d).
  { intros orig cols H.
    apply renaming_load_inv in H
        as [s1 [cleaned [other [c0 [d [pc [renamed [p H]]]]]]]].
    destruct H as [H0 [Hc [Hd [Hpc [Hr [Hp ->]]]]]].
    destruct (load_csv_config _ _ _ _ _ _ _ H0) as [Hpc1 _].
    apply load_csv_inv in H0 as [t [data [_ [_ [_ [Hg [o [Ho Eo]]]]]]]].
    inversion Eo; subst o.
    apply getitems_ok in Hg as [Hg1 [Hg2 Hg3]].
    apply getitems_ok in Ho as [_ [Ho2 Ho3]].
    apply rename_ok in Hd as [Hd1 [Hd2 Hd3]].
    apply rename_ok in Hr as [_ [Hr2 Hr3]].
    apply getitems_ok in Hp as [Hp1 [Hp2 Hp3]].
    exists d. simpl. split; [reflexivity |]. split.
    - rewrite Hc, Hd1, Hg1. reflexivity.
    - exists p, pc. repeat split; auto; congruence. }
  destruct v; simpl; unfold requested;
    try (destruct (arg_length_column a); [discriminate |]); intro H.
  - apply chembl_load_inv in H as [s1 [cleaned [other [pc [p H]]]]].
    destruct H as [H0 [Hpc [Hp ->]]].
    destruct (load_csv_config _ _ _ _ _ _ _ H0) as [Hpc1 _].
    apply load_csv_inv in H0 as [t [data [_ [_ [_ [Hg [o [Ho Eo]]]]]]]].
    inversion Eo; subst o.
    apply getitems_ok in Hg as [Hg1 [Hg2 Hg3]].
    apply getitems_ok in Ho as [_ [Ho2 Ho3]].
    apply getitems_ok in Hp as [Hp1 [Hp2 Hp3]].
    exists cleaned. simpl. split; [reflexivity |]. split.
    + rewrite Hg1. now destruct (arg_columns a).
    + exists p, pc. repeat split; auto; congruence.
  - rewrite lipophilicity_load_eq in H. apply Hren in H as [d [H1 [H2 H3]]].
    exists d. split; [assumption |]. split; [| assumption].
    rewrite H2. now destruct (arg_columns a).
  - rewrite esol_load_eq in H. apply Hren in H as [d [H1 [H2 H3]]].
    exists d. split; [assumption |]. split; [| assumption].
    rewrite H2. now destruct (arg_columns a).
  - rewrite freesolv_load_eq in H. apply Hren in H as [d [H1 [H2 H3]]].
    exists d. split; [assumption |]. split; [| assumption].
    rewrite H2. now destruct (arg_columns a).
  - apply zinc_load_inv in H as [s1 [cleaned [H0 ->]]].
    destruct (load_csv_config _ _ _ _ _ _ _ H0) as [_ Hp].
    apply load_csv_inv in H0 as [t [data [_ [_ [_ [Hg _]]]]]].
    apply getitems_ok in Hg as [Hg1 _].
    exists cleaned. simpl. split; [reflexivity |]. split; [| assumption].
    rewrite Hg1. now destruct (arg_columns a).
  - apply generic_load_inv in H as [s1 [cleaned [other [H0 ->]]]].
    destruct (load_csv_config _ _ _ _ _ _ _ H0) as [_ Hp].
    apply load_csv_inv in H0 as [t [data [_ [_ [_ [Hg _]]]]]].
    apply getitems_ok in Hg as [Hg1 _].
    exists cleaned. simpl. split; [reflexivity |]. split; [| assumption].
    rewrite Hg1. now destruct (arg_columns a).
Qed.

(** C1, at a bare column name.  [load('smiles')] on the lipophilicity
    class succeeds and leaves [data] with the source label [smiles]:
    [_load_csv] wraps the bare name in a list, but the rename is keyed
    by [columns[0]], which for a string is its first character.  The
    same call with [['smiles']] renames. *)
Theorem bare_name_is_not_renamed :
  let obj := Samples.built VMoleculeNetLipophilicityPhyschem [] in
  let bare := load_method VMoleculeNetLipophilicityPhyschem Samples.disk
                Samples.bare_smiles obj in
  let listed := load_method VMoleculeNetLipophilicityPhyschem Samples.disk
                  (list_columns ["smiles"]) obj in
  snd bare = Ok tt
  /\ option_map frame_columns (data (fst bare)) = Some ["smiles"]
  /\ snd listed = Ok tt
  /\ option_map frame_columns (data (fst listed)) = Some ["canonical_smiles"].
Proof. vm_compute. repeat split. Qed.

(** For a list of requested labels the first is renamed and the others
    are kept; [properties] carries [properties_cols] on the index of
    [data]. *)
Lemma load_labels_of_list v fs c rest s s' :
  load_method v fs (list_columns (c :: rest)) s = (s', Ok tt) ->
  exists d,
    data s' = Some d
    /\ frame_columns d
       = (if is_renaming v
          then "canonical_smiles"
               :: map (rename_label [(c, "canonical_smiles")]) rest
          else c :: rest)
    /\ (has_properties v = true ->
        exists p pc,
          properties s' = Some p /\ properties_cols s' = Some pc
          /\ frame_columns p = pc /\ index p = index d).
Proof.
  intro H. apply load_labels in H as [d [H1 [H2 H3]]].
  exists d. split; [assumption |]. split.
  - rewrite H2. destruct v; simpl; try reflexivity;
      unfold rename_label at 1; simpl; now rewrite String.eqb_refl.
  - intro E. rewrite E in H3. destruct H3 as [p [pc H3]].
    exists p, pc. tauto.
Qed.

(** The classes without a rename leave [data] with the labels asked. *)
Lemma no_rename_in v :
  ~ In v renaming_variants -> ~ performs_rename v.
Proof.
  intros Hv [fs [a [s [s' [d [H [Hd Hne]]]]]]].
  apply load_labels in H as [d' [Hd' [Hl _]]].
  assert (d' = d) by congruence. subst d'.
  apply Hne. rewrite Hl.
  destruct v; try reflexivity; exfalso; apply Hv; simpl; auto.
Qed.

Lemma rename_in v : In v renaming_variants -> performs_rename v.
Proof.
  intro Hv. unfold performs_rename.
  exists Samples.disk, no_args, (Samples.built v []).
  destruct Hv as [<- | [<- | [<- | []]]];
    eexists; eexists;
    (split; [vm_compute; reflexivity |]);
    (split; [reflexivity | vm_compute; discriminate]).
Qed.

(** Against C5 as it is worded: four distinct classes of [__all__]
    that rename do not exist. *)
Lemma four_renaming_variants_do_not_exist :
  ~ exists l,
      NoDup l /\ length l = 4
      /\ forall v, In v l -> In v all_variants /\ performs_rename v.
Proof.
  intros [l [Hnd [Hlen H]]].
  assert (Hincl : incl l renaming_variants).
  { intros v Hv. destruct (H v Hv) as [_ Hr].
    destruct v; simpl; auto 6; exfalso;
      revert Hr; apply no_rename_in; simpl;
      intros [E | [E | [E | []]]]; discriminate. }
  apply (NoDup_incl_length Hnd) in Hincl. simpl in Hincl. lia.
Qed.

(** C5, as the code has it.  Of the five classes of [__all__], the
    ones whose [load] renames are the three MoleculeNet classes.  In
    these, for a list of requested labels, the label first in the list
    becomes [canonical_smiles] in [data], and [properties] is the
    companion table renamed by the dict that zips the class's
    [orig_property_name] with [properties_cols], restricted to
    [properties_cols]. *)
Theorem rename_step v :
  In v all_variants ->
  (performs_rename v <-> In v renaming_variants)
  /\ (In v renaming_variants ->
      forall fs c rest s s',
        load_method v fs (list_columns (c :: rest)) s = (s', Ok tt) ->
        exists s1 cleaned other d pc renamed p,
          _load_csv fs (ColList (c :: rest)) None true s
          = (s1, Ok (cleaned, Some other))
          /\ rename [(c, "canonical_smiles")] cleaned = Ok d
          /\ data s' = Some d
          /\ frame_columns d
             = "canonical_smiles"
               :: map (rename_label [(c, "canonical_smiles")]) rest
          /\ properties_cols s = Some pc
          /\ rename (dict_of (combine (orig_property_name v) pc)) other
             = Ok renamed
          /\ getitems pc renamed = Ok p
          /\ properties s' = Some p
          /\ frame_columns p = pc).
Proof.
  intros _. split.
  - split; [| apply rename_in].
    intro H. destruct v; simpl; auto 6; exfalso;
      revert H; apply no_rename_in; simpl;
      intros [E | [E | [E | []]]]; discriminate.
  - intros Hv fs c rest s s' H.
    assert (Hr : renaming_load (orig_property_name v) fs (ColList (c :: rest)) s
                 = (s', Ok tt)).
    { destruct Hv as [<- | [<- | [<- | []]]]; exact H. }
    apply renaming_load_inv in Hr
        as [s1 [cleaned [other [c0 [d [pc [renamed [p Hr]]]]]]]].
    destruct Hr as [H0 [Hc [Hd [Hpc [Hrn [Hp ->]]]]]].
    simpl in Hc. inversion Hc; subst c0.
    exists s1, cleaned, other, d, pc, renamed, p.
    split; [exact H0 |]. split; [exact Hd |]. split; [reflexivity |].
    split.
    { apply rename_ok in Hd as [Hd _]. rewrite Hd.
      apply load_csv_inv in H0 as [t [data [_ [_ [_ [Hg _]]]]]].
      apply getitems_ok in Hg as [-> _].
      simpl. unfold rename_label at 1. simpl. now rewrite String.eqb_refl. }
    split; [exact Hpc |]. split; [exact Hrn |]. split; [exact Hp |].
    split; [reflexivity | now apply getitems_ok in Hp].
Qed.

Lemma rename_step_witness :
  In VMoleculeNetLipophilicityPhyschem all_variants
  /\ (performs_rename VMoleculeNetLipophilicityPhyschem
      <-> In VMoleculeNetLipophilicityPhyschem renaming_variants)
  /\ exists s1 cleaned other d pc renamed p,
      _load_csv Samples.disk (ColList ["smiles"]) None true
        (Samples.built VMoleculeNetLipophilicityPhyschem [])
      = (s1, Ok (cleaned, Some other))
      /\ rename [("smiles", "canonical_smiles")] cleaned = Ok d
      /\ data (fst (load_method VMoleculeNetLipophilicityPhyschem Samples.disk
                      (list_columns ["smiles"])
                      (Samples.built VMoleculeNetLipophilicityPhyschem [])))
         = Some d
      /\ frame_columns d
         = "canonical_smiles"
           :: map (rename_label [("smiles", "canonical_smiles")]) []
      /\ properties_cols (Samples.built VMoleculeNetLipophilicityPhyschem [])
         = Some pc
      /\ rename (dict_of (combine
                            (orig_property_name VMoleculeNetLipophilicityPhyschem)
                            pc)) other
         = Ok renamed
      /\ getitems pc renamed = Ok p
      /\ properties (fst (load_method VMoleculeNetLipophilicityPhyschem
                            Samples.disk (list_columns ["smiles"])
                            (Samples.built VMoleculeNetLipophilicityPhyschem [])))
         = Some p
      /\ frame_columns p = pc.
Proof.
  assert (Hin : In VMoleculeNetLipophilicityPhyschem all_variants)
    by (simpl; auto).
  split; [exact Hin |].
  destruct (rename_step VMoleculeNetLipophilicityPhyschem Hin) as [H1 H2].
  split; [exact H1 |].
  apply (H2 (or_introl eq_refl) Samples.disk "smiles" []
            (Samples.built VMoleculeNetLipophilicityPhyschem [])).
  vm_compute. reflexivity.
Defined.

(** A second [load] with the same arguments, on the same files,
    leaves the object as the first left it, [data], [properties] and
    [max_len] included, and ends as the first did; and what a call
    assigns and returns is what it assigns and returns on the object
    with nothing loaded. *)
Lemma load_twice v fs a s :
  load_method v fs a (fst (load_method v fs a s)) = load_method v fs a s
  /\ load_method v fs a s
     = (overlay (fst (load_method v fs a (blank s))) s,
        snd (load_method v fs a (blank s))).
Proof.
  split; [apply cd_twice, cd_load_method | apply cd_load_method].
Qed.

(** Any number of further calls changes nothing either. *)
Lemma load_again v fs a s n :
  Nat.iter (S n) (fun x => fst (load_method v fs a x)) s
  = fst (load_method v fs a s).
Proof.
  induction n as [| n IH]; [reflexivity |].
  change (Nat.iter (S (S n)) ?f s) with (f (Nat.iter (S n) f s)).
  rewrite IH. now rewrite (cd_twice _ _ (cd_load_method v fs a)).
Qed.

(** On the sample file, the object after two calls of [load()] is the
    object after one. *)
Example load_twice_sample :
  let obj := Samples.built VMoleculeNetLipophilicityPhyschem [] in
  let once := fst (load_method VMoleculeNetLipophilicityPhyschem Samples.disk
                     no_args obj) in
  fst (load_method VMoleculeNetLipophilicityPhyschem Samples.disk no_args once)
  = once
  /\ max_len once = Some (VInt 4).
Proof. vm_compute. split; reflexivity. Qed.

(** C10.  A constructor of a subclass yields the object that its class
    alone determines, if the data file exists, and raises otherwise:
    the keyword arguments reach the base constructor as [name], which
    the subclass then overwrites, so that calls with different keyword
    arguments yield the same. *)
Theorem construct_ignores_kwargs v env kw :
  construct v env kw
  = (hard_warnings v,
     if path_exists (files env) (hard_path v env)
     then Ok (hard_coded v env)
     else Raise AssertionError)
  /\ forall kw', construct v env kw' = construct v env kw.
Proof.
  assert (H : forall k,
             construct v env k
             = (hard_warnings v,
                if path_exists (files env) (hard_path v env)
                then Ok (hard_coded v env)
                else Raise AssertionError)).
  { intro k.
    destruct v;
      unfold construct, ChEMBLApprovedDrugsPhyschem.__init__,
        MoleculeNetLipophilicityPhyschem.__init__,
        MoleculeNetESOLPhyschem.__init__, MoleculeNetFreeSolvPhyschem.__init__,
        ZINC15TestSplit.__init__, ChEMBL20KSamples.__init__,
        assert_exists, hard_path;
      cbn [data_path set_data_path set_index_col set_properties_cols
             set_table_name set_name GenericCSVDataset.__init__
             hard_file hard_warnings];
      match goal with |- context [path_exists ?f ?p] =>
        destruct (path_exists f p) end; reflexivity. }
  split; [apply H |]. intro kw'. now rewrite !H.
Qed.

(** The keyword arguments reach [name] in the base constructor. *)
Example base_constructor_keeps_name :
  name (GenericCSVDataset.__init__ (NameKwargs [("name", VStr "mine")])
          None None None None)
  = NameKwargs [("name", VStr "mine")].
Proof. reflexivity. Qed.

Example construct_sample :
  snd (construct VZINC15TestSplit
         {| files := fun _ => Some Samples.esol_csv; package_dir := "/opt/cuchem" |}
         [("index_col", VStr "id"); ("name", VStr "mine")])
  = Ok (hard_coded VZINC15TestSplit
          {| files := fun _ => Some Samples.esol_csv;
             package_dir := "/opt/cuchem" |}).
Proof. reflexivity. Qed.

End Descriptors.

(** ** The pipeline manager *)

Module ManagerFacts.
Import Portal.

Section WithClient.

Context {store Pipeline conf : Type}.
Variable c : DBClient store Pipeline conf.

(** C4.  When the client raises an integrity error during [update],
    from [update_record] or from the check at [commit], [update]
    raises that same error, the session is rolled back and nothing is
    committed: the database is as it was before the call. *)
Theorem update_integrity_error (previous_id : Z) (new_conf : conf)
  (db : store) (m : string) :
  snd (update_record c previous_id new_conf db) = Raised (IntegrityError m)
  \/ (exists p,
         snd (update_record c previous_id new_conf db) = Return p
         /\ integrity c (fst (update_record c previous_id new_conf db))
            = Some (IntegrityError m)) ->
  let out := PipelineManager.update c previous_id new_conf db in
  result_of out = Raised (IntegrityError m)
  /\ db_after out = db
  /\ (events out = [EvSession; EvUpdateRecord previous_id; EvRollback; EvClose]
      \/ events out = [EvSession; EvUpdateRecord previous_id; EvCommitRefused;
                       EvRollback; EvClose])
  /\ commits (events out) = false.
Proof.
  unfold PipelineManager.update, with_session, call, commit, rollback, log,
    result_of, db_after, events.
  simpl.
  destruct (update_record c previous_id new_conf db) as [w r].
  simpl. intros [H | [p [H Hi]]]; subst r.
  - simpl. repeat split; auto.
  - rewrite Hi. simpl. repeat split; auto.
Qed.

(** C8, as the code has it.  Every call of the manager is scoped on
    a session and delegates to the client.  [create], [update] and
    [delete] commit when they return, and the database is then what
    the client left pending.  [fetch_by_id] and [fetch_all] close the
    session without a commit and leave the database as it was. *)
Theorem manager_sessions :
  (forall ppln db,
      let out := PipelineManager.create c ppln db in
      scoped EvInsert (events out)
      /\ forall r, result_of out = Return r ->
           events out = [EvSession; EvInsert; EvCommit; EvClose]
           /\ db_after out = fst (insert c ppln db))
  /\ (forall id new_conf db,
         let out := PipelineManager.update c id new_conf db in
         scoped (EvUpdateRecord id) (events out)
         /\ forall r, result_of out = Return r ->
              events out = [EvSession; EvUpdateRecord id; EvCommit; EvClose]
              /\ db_after out = fst (update_record c id new_conf db))
  /\ (forall id db,
         let out := PipelineManager.delete c id db in
         scoped (EvDelete id) (events out)
         /\ forall r, result_of out = Return r ->
              events out = [EvSession; EvDelete id; EvCommit; EvClose]
              /\ db_after out = fst (delete c id db))
  /\ (forall id db,
         let out := PipelineManager.fetch_by_id c id db in
         events out = [EvSession; EvQueryById id; EvClose]
         /\ result_of out = snd (query_by_id c id db)
         /\ db_after out = db)
  /\ (forall start n db,
         let out := PipelineManager.fetch_all c start n db in
         events out = [EvSession; EvQueryRange start n; EvClose]
         /\ result_of out = snd (query_range c start n db)
         /\ db_after out = db).
Proof.
  repeat split.
  - unfold PipelineManager.create, with_session, call, commit, log, events.
    simpl. destruct (insert c ppln db) as [w [r | e]]; simpl.
    + destruct (integrity c w); simpl; [now exists [EvCommitRefused] |
                                         now exists [EvCommit]].
    + now exists [].
  - revert H.
    unfold PipelineManager.create, with_session, call, commit, log, events,
      result_of. simpl.
    destruct (insert c ppln db) as [w [r' | e]]; simpl; [| discriminate].
    destruct (integrity c w); simpl; [discriminate | reflexivity].
  - revert H.
    unfold PipelineManager.create, with_session, call, commit, log, db_after,
      result_of. simpl.
    destruct (insert c ppln db) as [w [r' | e]]; simpl; [| discriminate].
    destruct (integrity c w); simpl; [discriminate | reflexivity].
  - unfold PipelineManager.update, with_session, call, commit, rollback, log,
      events. simpl.
    destruct (update_record c id new_conf db) as [w [r | [m | m]]]; simpl.
    + destruct (integrity c w) as [[m | m] |]; simpl;
        [now exists [EvCommitRefused; EvRollback]
        | now exists [EvCommitRefused] | now exists [EvCommit]].
    + now exists [EvRollback].
    + now exists [].
  - revert H.
    unfold PipelineManager.update, with_session, call, commit, rollback, log,
      events, result_of. simpl.
    destruct (update_record c id new_conf db) as [w [r' | [m | m]]]; simpl;
      try discriminate.
    destruct (integrity c w) as [[m | m] |]; simpl;
      [discriminate | discriminate | reflexivity].
  - revert H.
    unfold PipelineManager.update, with_session, call, commit, rollback, log,
      db_after, result_of. simpl.
    destruct (update_record c id new_conf db) as [w [r' | [m | m]]]; simpl;
      try discriminate.
    destruct (integrity c w) as [[m | m] |]; simpl;
      [discriminate | discriminate | reflexivity].
  - unfold PipelineManager.delete, with_session, call, commit, log, events.
    simpl. destruct (delete c id db) as [w [r | e]]; simpl.
    + destruct (integrity c w); simpl; [now exists [EvCommitRefused] |
                                         now exists [EvCommit]].
    + now exists [].
  - revert H.
    unfold PipelineManager.delete, with_session, call, commit, log, events,
      result_of. simpl.
    destruct (delete c id db) as [w [r' | e]]; simpl; [| discriminate].
    destruct (integrity c w); simpl; [discriminate | reflexivity].
  - revert H.
    unfold PipelineManager.delete, with_session, call, commit, log, db_after,
      result_of. simpl.
    destruct (delete c id db) as [w [r' | e]]; simpl; [| discriminate].
    destruct (integrity c w); simpl; [discriminate | reflexivity].
Qed.

End WithClient.

Lemma update_integrity_error_witness :
  (snd (update_record Sample.client 1 "conf-b" Sample.db0)
   = Raised (IntegrityError "Duplicate entry")
   \/ (exists p,
          snd (update_record Sample.client 1 "conf-b" Sample.db0) = Return p
          /\ integrity Sample.client
               (fst (update_record Sample.client 1 "conf-b" Sample.db0))
             = Some (IntegrityError "Duplicate entry")))
  /\ let out := PipelineManager.update Sample.client 1 "conf-b" Sample.db0 in
     result_of out = Raised (IntegrityError "Duplicate entry")
     /\ db_after out = Sample.db0
     /\ (events out = [EvSession; EvUpdateRecord 1; EvRollback; EvClose]
         \/ events out = [EvSession; EvUpdateRecord 1; EvCommitRefused;
                          EvRollback; EvClose])
     /\ commits (events out) = false.
Proof.
  split.
  - left. reflexivity.
  - apply (update_integrity_error Sample.client 1 "conf-b" Sample.db0
             "Duplicate entry").
    left. reflexivity.
Defined.

(** What the client left pending when it raised was a partial write;
    the database does not have it. *)
Example update_partial_write_dropped :
  fst (update_record Sample.client 1 "conf-b" Sample.db0)
  = [(1%Z, "conf-b"); (2%Z, "conf-b")]
  /\ db_after (PipelineManager.update Sample.client 1 "conf-b" Sample.db0)
     = [(1%Z, "conf-a"); (2%Z, "conf-b")]
  /\ result_of (PipelineManager.fetch_by_id Sample.client 1
                  (db_after (PipelineManager.update Sample.client 1 "conf-b"
                               Sample.db0)))
     = Return (1%Z, "conf-a").
Proof. repeat split. Qed.

(** Against C8 as it is worded: [fetch_by_id] returns a pipeline and
    has committed nothing. *)
Lemma fetch_by_id_does_not_commit :
  let out := PipelineManager.fetch_by_id Sample.client 1 Sample.db0 in
  result_of out = Return (1%Z, "conf-a")
  /\ commits (events out) = false.
Proof. split; reflexivity. Qed.

Lemma manager_sessions_witness :
  result_of (PipelineManager.update Sample.client 1 "conf-c" Sample.db0)
  = Return (1%Z, "conf-c")
  /\ events (PipelineManager.update Sample.client 1 "conf-c" Sample.db0)
     = [EvSession; EvUpdateRecord 1; EvCommit; EvClose]
  /\ db_after (PipelineManager.update Sample.client 1 "conf-c" Sample.db0)
     = fst (update_record Sample.client 1 "conf-c" Sample.db0).
Proof.
  split; [reflexivity |].
  destruct (manager_sessions Sample.client) as [_ [H _]].
  destruct (H 1%Z "conf-c" Sample.db0) as [_ H'].
  apply (H' (1%Z, "conf-c")). reflexivity.
Defined.

End ManagerFacts.

(** ** Further properties of the loaders *)

Module LoaderMore.
Import DF Datasets GenericCSVDataset Spec SpecLoad SpecMore DFFacts LoaderFacts.

(** *** Columns by label *)

Lemma assoc_none {A} c (cols : list (string * A)) :
  assoc c cols = None <-> ~ In c (map fst cols).
Proof.
  induction cols as [| [n v] t IH]; simpl.
  - tauto.
  - destruct (String.eqb c n) eqn:E.
    + apply String.eqb_eq in E. subst. split; [discriminate | tauto].
    + apply String.eqb_neq in E. rewrite IH. split.
      * intros H [H1 | H1]; [congruence | tauto].
      * tauto.
Qed.

Lemma getitem_missing c f :
  ~ In c (frame_columns f) -> getitem c f = Raise (KeyError (VStr c)).
Proof.
  intro H. unfold getitem. apply assoc_none in H. now rewrite H.
Qed.

Lemma getitem_present c f :
  In c (frame_columns f) -> exists ser, getitem c f = Ok ser.
Proof.
  intro H. unfold getitem. destruct (assoc c (fcols f)) eqn:E; [eauto |].
  apply assoc_none in E. contradiction.
Qed.

Lemma select_cols_missing cs cols :
  (exists c, In c cs /\ ~ In c (map fst cols)) ->
  exists k, select_cols cs cols = Raise (KeyError (VStr k))
            /\ In k cs /\ ~ In k (map fst cols).
Proof.
  induction cs as [| c t IH]; intros [x [Hx Hn]]; simpl in *; [contradiction |].
  destruct (assoc c cols) eqn:E.
  - destruct Hx as [-> | Hx].
    + apply assoc_none in Hn. congruence.
    + destruct IH as [k [Hk [Hin Hnk]]]; [eauto |].
      exists k. rewrite Hk. simpl. auto.
  - exists c. apply assoc_none in E. auto.
Qed.

Lemma select_cols_total cs cols :
  (forall c, In c cs -> In c (map fst cols)) ->
  exists r, select_cols cs cols = Ok r.
Proof.
  induction cs as [| c t IH]; simpl; intro H; [eauto |].
  destruct (assoc c cols) eqn:E.
  - destruct IH as [r Hr]; [auto |]. rewrite Hr. simpl. eauto.
  - apply assoc_none in E. exfalso. apply E. auto.
Qed.

Lemma select_cols_assoc cs cols r :
  select_cols cs cols = Ok r ->
  forall c, In c cs -> assoc c r = assoc c cols.
Proof.
  revert r. induction cs as [| c0 t IH]; simpl; intros r H c Hc; [contradiction |].
  destruct (assoc c0 cols) eqn:E; [| discriminate].
  apply rbind_ok in H as [r' [Hr' Er]]. inversion Er; subst. simpl.
  destruct (String.eqb c c0) eqn:Ec.
  - apply String.eqb_eq in Ec. subst. now rewrite E.
  - destruct Hc as [-> | Hc]; [now rewrite String.eqb_refl in Ec |].
    now apply (IH _ Hr').
Qed.

Lemma getitems_cells cs f g :
  getitems cs f = Ok g -> forall c, In c cs -> getitem c g = getitem c f.
Proof.
  unfold getitems. destruct (has_dup cs); [discriminate |].
  intro H. apply rbind_ok in H as [cols [Hc E]]. inversion E; subst.
  intros c Hin. unfold getitem. simpl.
  now rewrite (select_cols_assoc _ _ _ Hc c Hin).
Qed.

Lemma getitems_missing cs f :
  NoDup cs ->
  (exists c, In c cs /\ ~ In c (frame_columns f)) ->
  exists k, getitems cs f = Raise (KeyError (VStr k))
            /\ In k cs /\ ~ In k (frame_columns f).
Proof.
  intros Hnd H. unfold getitems.
  apply has_dup_NoDup in Hnd. rewrite Hnd.
  destruct (select_cols_missing cs (fcols f) H) as [k [Hk Hr]].
  exists k. now rewrite Hk.
Qed.

Lemma getitems_total cs f :
  NoDup cs -> (forall c, In c cs -> In c (frame_columns f)) ->
  exists g, getitems cs f = Ok g.
Proof.
  intros Hnd H. unfold getitems.
  apply has_dup_NoDup in Hnd. rewrite Hnd.
  destruct (select_cols_total cs (fcols f) H) as [r Hr].
  rewrite Hr. simpl. eauto.
Qed.

Lemma map_len_fails ser :
  (exists v, In v ser /\ forall x, v <> VStr x) ->
  exists msg, map_len ser = Raise (TypeError msg).
Proof.
  induction ser as [| a t IH]; intros [v [Hv Hn]]; simpl in *; [contradiction |].
  destruct a; try (eexists; reflexivity).
  destruct Hv as [<- | Hv]; [exfalso; now apply (Hn s) |].
  destruct IH as [msg Hm]; [eauto |]. rewrite Hm. simpl. eauto.
Qed.

(** *** What a call leaves alone *)

(** X1.  No [load], whatever its arguments and however it ends,
    changes the configuration of the object. *)
Theorem load_keeps_configuration v fs a s :
  let s' := fst (load_method v fs a s) in
  name s' = name s /\ table_name s' = table_name s
  /\ data_path s' = data_path s /\ properties_cols s' = properties_cols s
  /\ index_col s' = index_col s /\ index_selection s' = index_selection s.
Proof.
  destruct (cd_load_method v fs a s) as [E _]. rewrite E. simpl. auto 10.
Qed.

Lemma keeps_bind {A B} (m : M A) (k : A -> M B) :
  keeps_tables m -> (forall a, keeps_tables (k a)) -> keeps_tables (bind m k).
Proof.
  intros Hm Hk s s' r. unfold bind.
  destruct (m s) as [s1 [a | e]] eqn:E; intro H.
  - destruct (Hm _ _ _ E) as [H1 H2]. destruct (Hk a _ _ _ H) as [H3 H4].
    split; congruence.
  - inversion H; subst. apply (Hm _ _ _ E).
Qed.

Lemma keeps_lift {A} (r : result A) : keeps_tables (lift r).
Proof. intros s s' r' H. unfold lift in H. inversion H; subst. auto. Qed.

Lemma keeps_ret {A} (a : A) : keeps_tables (ret a).
Proof. intros s s' r' H. unfold ret in H. inversion H; subst. auto. Qed.

Lemma keeps_get_self : keeps_tables get_self.
Proof. intros s s' r' H. unfold get_self in H. inversion H; subst. auto. Qed.

Lemma keeps_set_max_len x : keeps_tables (assign (set_max_len x)).
Proof. intros s s' r' H. unfold assign in H. inversion H; subst. auto. Qed.

Lemma keeps_load_csv fs columns length_column rr :
  keeps_tables (_load_csv fs columns length_column rr).
Proof.
  unfold _load_csv.
  apply keeps_bind; [apply keeps_get_self | intro self].
  apply keeps_bind; [apply keeps_lift | intro data].
  apply keeps_bind.
  { unfold compute_max_len. destruct (truthy_str length_column).
    - apply keeps_bind; [apply keeps_lift | intro; apply keeps_set_max_len].
    - destruct (as_list columns) as [| c [| c' t]]; try apply keeps_ret.
      apply keeps_bind; [apply keeps_lift | intro].
      apply keeps_bind; [apply keeps_lift | intro; apply keeps_set_max_len]. }
  intros _. apply keeps_bind; [apply keeps_lift | intro cleaned].
  apply keeps_bind; [| intro; apply keeps_ret].
  destruct rr; [| apply keeps_ret].
  apply keeps_bind; [apply keeps_lift | intro; apply keeps_ret].
Qed.

Lemma quiet_bind {A B} (m : M A) (k : A -> M B) :
  keeps_tables m -> (forall a, quiet_on_error (k a)) -> quiet_on_error (bind m k).
Proof.
  intros Hm Hk s s' e. unfold bind.
  destruct (m s) as [s1 [a | e1]] eqn:E; intro H.
  - destruct (Hm _ _ _ E) as [H1 H2]. destruct (Hk a _ _ _ H) as [H3 H4].
    split; congruence.
  - inversion H; subst. apply (Hm _ _ _ E).
Qed.

Lemma quiet_assign f : quiet_on_error (assign f).
Proof. intros s s' e H. unfold assign in H. discriminate. Qed.

Lemma quiet_raise {A} e : quiet_on_error (@raise A e).
Proof. intros s s' e' H. unfold raise in H. inversion H; subst. auto. Qed.

Ltac quiet_step :=
  first [ apply quiet_assign | apply quiet_raise
        | apply quiet_bind;
          [first [apply keeps_load_csv | apply keeps_lift | apply keeps_get_self]
          | intro] ].

Lemma quiet_load_method v fs a : quiet_on_error (load_method v fs a).
Proof.
  destruct v; simpl;
    try (destruct (arg_length_column a); [apply quiet_raise |]);
    unfold ChEMBLApprovedDrugsPhyschem.load,
      MoleculeNetLipophilicityPhyschem.load, MoleculeNetESOLPhyschem.load,
      MoleculeNetFreeSolvPhyschem.load, ZINC15TestSplit.load,
      ChEMBL20KSamples.load, GenericCSVDataset.load;
    repeat quiet_step.
Qed.

(** X2.  A [load] that raises has changed neither [data] nor
    [properties]: both are assigned by the last statement only. *)
Theorem failed_load_keeps_tables v fs a s e :
  snd (load_method v fs a s) = Raise e ->
  data (fst (load_method v fs a s)) = data s
  /\ properties (fst (load_method v fs a s)) = properties s.
Proof.
  intro H. apply (quiet_load_method v fs a s _ e).
  rewrite <- H. now destruct (load_method v fs a s).
Qed.

Lemma failed_load_keeps_tables_witness :
  let s := fst (load_method VMoleculeNetLipophilicityPhyschem Samples.disk no_args
                  (Samples.built VMoleculeNetLipophilicityPhyschem [])) in
  let a := list_columns ["name"] in
  snd (load_method VMoleculeNetLipophilicityPhyschem Samples.disk a s)
  = Raise (KeyError (VStr "name"))
  /\ data (fst (load_method VMoleculeNetLipophilicityPhyschem Samples.disk a s))
     = data s
  /\ properties (fst (load_method VMoleculeNetLipophilicityPhyschem
                        Samples.disk a s))
     = properties s.
Proof.
  split; [reflexivity |].
  apply (failed_load_keeps_tables VMoleculeNetLipophilicityPhyschem Samples.disk
           (list_columns ["name"]) _ (KeyError (VStr "name"))).
  reflexivity.
Defined.

(** *** How [_load_csv] ends *)

Lemma load_csv_run fs columns length_column rr s :
  _load_csv fs columns length_column rr s
  = match loaded_table fs s with
    | Raise e => (s, Raise e)
    | Ok data =>
        match compute_max_len (as_list columns) length_column data s with
        | (s1, Raise e) => (s1, Raise e)
        | (s1, Ok _) =>
            match getitems (as_list columns) data with
            | Raise e => (s1, Raise e)
            | Ok cleaned =>
                if rr
                then match getitems (remain_columns (as_list columns)
                                       length_column data) data with
                     | Raise e => (s1, Raise e)
                     | Ok o => (s1, Ok (cleaned, Some o))
                     end
                else (s1, Ok (cleaned, None))
            end
        end
    end.
Proof.
  unfold _load_csv, loaded_table, bind, get_self, lift, ret.
  destruct (rbind (indexed_table fs s) (select_rows s)) as [data |]; auto.
  destruct (compute_max_len (as_list columns) length_column data s)
    as [s1 [[] | e]]; auto.
  destruct (getitems (as_list columns) data) as [cleaned |]; auto.
  destruct rr; auto.
  destruct (getitems _ data); auto.
Qed.

(** X3.  [_load_csv] is not all-or-nothing: with a length column that
    the table has and a primary column that it lacks, the call raises
    after [max_len] has been assigned the maximum of the length
    column. *)
Theorem failing_load_csv_assigns_max_len fs columns length_column rr s
  lc data ser e :
  truthy_str length_column = Some lc ->
  loaded_table fs s = Ok data ->
  getitem lc data = Ok ser ->
  getitems (as_list columns) data = Raise e ->
  _load_csv fs columns length_column rr s
  = (set_max_len (Some (series_max ser)) s, Raise e).
Proof.
  intros Hl Ht Hg He. rewrite load_csv_run, Ht.
  unfold compute_max_len, bind, lift, assign. now rewrite Hl, Hg, He.
Qed.

Lemma failing_load_csv_assigns_max_len_witness :
  truthy_str (Some "exp") = Some "exp"
  /\ (exists data ser,
        loaded_table Samples.disk Samples.plain = Ok data
        /\ getitem "exp" data = Ok ser
        /\ getitems ["name"] data = Raise (KeyError (VStr "name"))
        /\ _load_csv Samples.disk (ColList ["name"]) (Some "exp") true
             Samples.plain
           = (set_max_len (Some (series_max ser)) Samples.plain,
              Raise (KeyError (VStr "name"))))
  /\ max_len (fst (_load_csv Samples.disk (ColList ["name"]) (Some "exp") true
                     Samples.plain)) = Some (VInt 9).
Proof.
  split; [reflexivity |]. split; [| reflexivity].
  eexists. eexists.
  split; [vm_compute; reflexivity |].
  split; [vm_compute; reflexivity |].
  split; [vm_compute; reflexivity |].
  eapply (failing_load_csv_assigns_max_len Samples.disk (ColList ["name"])
            (Some "exp") true Samples.plain "exp");
    vm_compute; reflexivity.
Defined.

(** X4.  Without a length column, a single primary column with a cell
    that is not a string (a number, a missing value) makes [_load_csv]
    raise [TypeError], from [len], and the object is left as it was. *)
Theorem non_string_column_is_type_error fs columns length_column rr s
  c data ser :
  truthy_str length_column = None ->
  as_list columns = [c] ->
  loaded_table fs s = Ok data ->
  getitem c data = Ok ser ->
  (exists v, In v ser /\ forall x, v <> VStr x) ->
  exists msg, _load_csv fs columns length_column rr s = (s, Raise (TypeError msg)).
Proof.
  intros Hl Hc Ht Hg Hv. rewrite load_csv_run, Ht, Hc.
  unfold compute_max_len, bind, lift. rewrite Hl, Hg.
  destruct (map_len_fails ser Hv) as [msg Hm]. rewrite Hm. eauto.
Qed.

Lemma non_string_column_is_type_error_witness :
  truthy_str None = None
  /\ as_list (ColList ["smiles"]) = ["smiles"]
  /\ exists data ser,
      loaded_table MoreSamples.disk MoreSamples.on_gappy = Ok data
      /\ getitem "smiles" data = Ok ser
      /\ (exists v, In v ser /\ forall x, v <> VStr x)
      /\ exists msg,
          _load_csv MoreSamples.disk (ColList ["smiles"]) None true
            MoreSamples.on_gappy
          = (MoreSamples.on_gappy, Raise (TypeError msg)).
Proof.
  split; [reflexivity |]. split; [reflexivity |].
  assert (Hv : exists v, In v [VStr "CCO"; VNull] /\ forall x, v <> VStr x).
  { exists VNull. split; [simpl; auto | discriminate]. }
  exists (match loaded_table MoreSamples.disk MoreSamples.on_gappy with
          | Ok d => d
          | Raise _ => mkFrame None [] []
          end), [VStr "CCO"; VNull].
  split; [reflexivity |]. split; [reflexivity |]. split; [exact Hv |].
  apply (non_string_column_is_type_error MoreSamples.disk (ColList ["smiles"])
           None true MoreSamples.on_gappy "smiles"
           (match loaded_table MoreSamples.disk MoreSamples.on_gappy with
            | Ok d => d
            | Raise _ => mkFrame None [] []
            end) [VStr "CCO"; VNull]);
    try reflexivity.
  exact Hv.
Defined.

(** X5.  When the table loads and one of the requested primary labels,
    all distinct, is not a column of it, [_load_csv] raises [KeyError]
    on a label the table lacks: a requested one, or the length
    column. *)
Theorem missing_column_is_key_error fs columns length_column rr s data :
  loaded_table fs s = Ok data ->
  NoDup (as_list columns) ->
  (exists c, In c (as_list columns) /\ ~ In c (frame_columns data)) ->
  exists k,
    snd (_load_csv fs columns length_column rr s) = Raise (KeyError (VStr k))
    /\ ~ In k (frame_columns data)
    /\ (In k (as_list columns) \/ truthy_str length_column = Some k).
Proof.
  intros Ht Hnd Hm. rewrite load_csv_run, Ht.
  destruct (getitems_missing _ data Hnd Hm) as [k [Hk [Hin Hn]]].
  unfold compute_max_len, bind, lift, assign, ret.
  destruct (truthy_str length_column) as [lc |].
  - destruct (getitem lc data) as [ser |] eqn:Eg.
    + rewrite Hk. simpl. eauto.
    + unfold getitem in Eg. destruct (assoc lc (fcols data)) eqn:Ea;
        [discriminate |]. inversion Eg; subst.
      apply assoc_none in Ea. simpl. eauto.
  - destruct (as_list columns) as [| c [| c' t]] eqn:Ec.
    + destruct Hm as [c [[] _]].
    + destruct Hm as [x [[<- | []] Hx]].
      rewrite (getitem_missing _ _ Hx). simpl. exists c. simpl. auto.
    + rewrite Hk. simpl. eauto.
Qed.

Lemma missing_column_is_key_error_witness :
  exists data,
    loaded_table Samples.disk Samples.plain = Ok data
    /\ NoDup (as_list (ColList ["smiles"; "name"]))
    /\ (exists c, In c (as_list (ColList ["smiles"; "name"]))
                  /\ ~ In c (frame_columns data))
    /\ exists k,
        snd (_load_csv Samples.disk (ColList ["smiles"; "name"]) None true
               Samples.plain) = Raise (KeyError (VStr k))
        /\ ~ In k (frame_columns data)
        /\ (In k (as_list (ColList ["smiles"; "name"]))
            \/ truthy_str None = Some k).
Proof.
  assert (Hnd : NoDup ["smiles"; "name"]).
  { apply has_dup_NoDup. reflexivity. }
  assert (Hm : exists c, In c ["smiles"; "name"]
                         /\ ~ In c ["smiles"; "exp"; "id"]).
  { exists "name". split; [simpl; auto |].
    simpl. intros [H | [H | [H | []]]]; discriminate. }
  eexists. split; [vm_compute; reflexivity |].
  split; [exact Hnd |]. split; [exact Hm |].
  apply (missing_column_is_key_error Samples.disk (ColList ["smiles"; "name"])
           None true Samples.plain); [reflexivity | exact Hnd | exact Hm].
Defined.

Lemma getitems_present cs f g :
  getitems cs f = Ok g -> forall c, In c cs -> In c (frame_columns f).
Proof.
  unfold getitems. destruct (has_dup cs); [discriminate |].
  intros H c Hc.
  destruct (in_dec string_dec c (frame_columns f)) as [Hi | Hn]; auto.
  destruct (select_cols_missing cs (fcols f)) as [k [Hk _]]; [eauto |].
  rewrite Hk in H. discriminate.
Qed.

(** X6.  The index column cannot be requested as a primary column:
    [set_index] has taken it out of the columns, so a [_load_csv] whose
    [columns] name it never returns. *)
Theorem index_column_is_not_primary fs columns length_column rr s c :
  truthy_str (index_col s) = Some c ->
  In c (as_list columns) ->
  forall s' r, _load_csv fs columns length_column rr s <> (s', Ok r).
Proof.
  intros Hi Hc s' [cleaned other] H.
  apply load_csv_inv in H as [t [data [Ht [Hd [_ [Hg _]]]]]].
  destruct (indexed_table_inv _ _ _ Ht) as [path [file [Hp [Hf _]]]].
  pose proof (loaded_labels _ _ _ _ _ _ Hp Hf Ht Hd) as Hl.
  apply (getitems_present _ _ _ Hg) in Hc.
  rewrite Hl in Hc. apply filter_In in Hc as [_ Hc].
  unfold names in Hc. rewrite Hi, String.eqb_refl in Hc. discriminate.
Qed.

Lemma index_column_is_not_primary_witness :
  truthy_str (index_col MoreSamples.zinc) = Some "index"
  /\ In "index" (as_list (ColList ["index"; "canonical_smiles"]))
  /\ (forall s' r,
        _load_csv MoreSamples.disk (ColList ["index"; "canonical_smiles"])
          (Some "length") false MoreSamples.zinc <> (s', Ok r))
  /\ snd (_load_csv MoreSamples.disk (ColList ["index"; "canonical_smiles"])
            (Some "length") false MoreSamples.zinc)
     = Raise (KeyError (VStr "index")).
Proof.
  split; [reflexivity |]. split; [simpl; auto |]. split; [| reflexivity].
  apply (index_column_is_not_primary MoreSamples.disk
           (ColList ["index"; "canonical_smiles"]) (Some "length") false
           MoreSamples.zinc "index"); [reflexivity | simpl; auto].
Defined.

(** X7.  The tables [_load_csv] returns carry the cells of the loaded
    table, column by column under the same label and on the same
    index: nothing is recomputed or reordered on the way out. *)
Theorem load_csv_cells fs columns length_column rr s s' cleaned other :
  _load_csv fs columns length_column rr s = (s', Ok (cleaned, other)) ->
  exists data,
    loaded_table fs s = Ok data
    /\ index cleaned = index data
    /\ (forall c, In c (as_list columns) -> getitem c cleaned = getitem c data)
    /\ (forall o, other = Some o ->
        index o = index data
        /\ forall c, In c (frame_columns o) -> getitem c o = getitem c data).
Proof.
  intro H. apply load_csv_inv in H as [t [data [Ht [Hd [_ [Hg Ho]]]]]].
  exists data. split; [unfold loaded_table; now rewrite Ht |].
  split; [now apply getitems_ok in Hg |].
  split; [now apply getitems_cells |].
  intros o ->. destruct rr; [| discriminate].
  destruct Ho as [o' [Ho E]]. inversion E; subst o'.
  split; [now apply getitems_ok in Ho |].
  intros c Hc. apply (getitems_cells _ _ _ Ho).
  now destruct (getitems_ok _ _ _ Ho) as [<- _].
Qed.

Lemma load_csv_cells_witness :
  exists s' cleaned other,
    _load_csv Samples.disk (ColList ["smiles"]) None true Samples.keyed
    = (s', Ok (cleaned, other))
    /\ exists data,
      loaded_table Samples.disk Samples.keyed = Ok data
      /\ index cleaned = index data
      /\ (forall c, In c (as_list (ColList ["smiles"])) ->
          getitem c cleaned = getitem c data)
      /\ (forall o, other = Some o ->
          index o = index data
          /\ forall c, In c (frame_columns o) -> getitem c o = getitem c data).
Proof.
  eexists. eexists. eexists. split.
  - vm_compute. reflexivity.
  - eapply (load_csv_cells Samples.disk (ColList ["smiles"]) None true
              Samples.keyed).
    vm_compute. reflexivity.
Defined.

(** *** A file without records *)

Lemma columns_from_empty j hs c col :
  assoc c (columns_from j hs []) = Some col -> col = [].
Proof.
  revert j. induction hs as [| h t IH]; simpl; intros j H; [discriminate |].
  destruct (String.eqb c h); [now inversion H | eauto].
Qed.

Lemma remain_columns_select cs lc data :
  NoDup (frame_columns data) ->
  exists o, getitems (remain_columns cs lc data) data = Ok o.
Proof.
  intro Hnd. apply getitems_total.
  - unfold remain_columns. destruct (truthy_str lc); now apply NoDup_filter.
  - intros c Hc. unfold remain_columns in Hc.
    destruct (truthy_str lc); now apply filter_In in Hc.
Qed.

(** X8.  A file with a header and no record loads: without index
    column and selection, a single primary column of the header gives
    an empty table and [max_len] is NaN. *)
Theorem empty_file_loads fs s path file c rr :
  data_path s = Some path -> fs path = Some file ->
  records file = [] -> NoDup (header file) -> In c (header file) ->
  truthy_str (index_col s) = None ->
  truthy_list (index_selection s) = None ->
  exists cleaned other,
    _load_csv fs (ColList [c]) None rr s
    = (set_max_len (Some VNull) s, Ok (cleaned, other))
    /\ frame_columns cleaned = [c]
    /\ frame_rows cleaned = [].
Proof.
  intros Hp Hf Hr Hnd Hc Hi Hs.
  set (data := set_index_name "index" (parse file)).
  assert (Ht : loaded_table fs s = Ok data).
  { unfold loaded_table, indexed_table, select_rows, read_csv.
    now rewrite Hp, Hf, Hi, Hs. }
  assert (Hl : frame_columns data = header file) by apply parse_columns.
  assert (Hg : getitem c data = Ok []).
  { destruct (getitem_present c data) as [ser Hser]; [now rewrite Hl |].
    rewrite Hser. f_equal. unfold getitem in Hser.
    destruct (assoc c (fcols data)) eqn:Ea; [| discriminate].
    inversion Hser; subst. unfold data, parse in Ea. simpl in Ea.
    rewrite Hr in Ea. now apply columns_from_empty in Ea. }
  destruct (getitems_total [c] data) as [cleaned Hcl].
  { repeat constructor. simpl. tauto. }
  { intros x [<- | []]. now rewrite Hl. }
  destruct (remain_columns_select [c] None data) as [o Ho];
    [now rewrite Hl |].
  rewrite load_csv_run, Ht. simpl as_list.
  unfold compute_max_len, bind, lift, assign. simpl truthy_str.
  rewrite Hg. simpl. rewrite Hcl.
  destruct (getitems_ok _ _ _ Hcl) as [Hcols [Hidx _]].
  assert (Hrows : frame_rows cleaned = []).
  { unfold frame_rows, nrows. rewrite Hidx. unfold data. simpl. now rewrite Hr. }
  destruct rr.
  - rewrite Ho. eauto.
  - eauto.
Qed.

Lemma empty_file_loads_witness :
  data_path MoreSamples.on_empty = Some "/data/empty.csv"
  /\ MoreSamples.disk "/data/empty.csv" = Some MoreSamples.empty_csv
  /\ records MoreSamples.empty_csv = []
  /\ NoDup (header MoreSamples.empty_csv)
  /\ In "smiles" (header MoreSamples.empty_csv)
  /\ truthy_str (index_col MoreSamples.on_empty) = None
  /\ truthy_list (index_selection MoreSamples.on_empty) = None
  /\ exists cleaned other,
      _load_csv MoreSamples.disk (ColList ["smiles"]) None true
        MoreSamples.on_empty
      = (set_max_len (Some VNull) MoreSamples.on_empty, Ok (cleaned, other))
      /\ frame_columns cleaned = ["smiles"]
      /\ frame_rows cleaned = [].
Proof.
  assert (Hnd : NoDup (header MoreSamples.empty_csv))
    by (apply has_dup_NoDup; reflexivity).
  assert (Hin : In "smiles" (header MoreSamples.empty_csv)) by (simpl; auto).
  repeat (split; [first [reflexivity | assumption] |]).
  apply (empty_file_loads MoreSamples.disk MoreSamples.on_empty
           "/data/empty.csv" MoreSamples.empty_csv "smiles" true);
    first [reflexivity | assumption].
Defined.

(** *** [max_len] against the strings of [data] *)

Lemma lengths_maximum strs :
  let m := series_max (map (fun x => VInt (Z.of_nat (py_len x))) strs) in
  (strs = [] -> m = VNull)
  /\ (strs <> [] ->
      exists z, m = VInt z
                /\ (forall x, In x strs -> (Z.of_nat (py_len x) <= z)%Z)
                /\ exists x, In x strs /\ Z.of_nat (py_len x) = z).
Proof.
  simpl. split; [now intros -> |]. intro Hne.
  destruct (series_max_is_maximum
              (map (fun x => VInt (Z.of_nat (py_len x))) strs))
    as [[Hn [Hin Hle]] | [_ Hall]].
  - apply in_map_iff in Hin as [x [Ex Hx]].
    exists (Z.of_nat (py_len x)). split; [now rewrite Ex |].
    split; [| eauto].
    intros y Hy.
    assert (H : value_leb (VInt (Z.of_nat (py_len y)))
                  (series_max
                     (map (fun x => VInt (Z.of_nat (py_len x))) strs))
                = true).
    { apply Hle; [| discriminate].
      apply in_map_iff. eauto. }
    rewrite <- Ex in H. simpl in H. now apply Z.leb_le.
  - destruct strs as [| x t]; [congruence |].
    specialize (Hall (VInt (Z.of_nat (py_len x)))).
    simpl in Hall. discriminate Hall. auto.
Qed.

Lemma getitems_single c f g :
  getitems [c] f = Ok g ->
  exists ser, getitem c f = Ok ser /\ fcols g = [(c, ser)] /\ index g = index f.
Proof.
  unfold getitems, getitem. simpl.
  destruct (assoc c (fcols f)) as [ser |]; simpl; [| discriminate].
  intro H. inversion H; subst. simpl. eauto.
Qed.

Lemma rename_single m c ser f g :
  fcols f = [(c, ser)] -> rename m f = Ok g ->
  fcols g = [(rename_label m c, ser)] /\ index g = index f.
Proof.
  unfold rename. intro E. rewrite E. simpl. intro H. now inversion H.
Qed.

Lemma single_column_max_len fs c s s1 cleaned other :
  _load_csv fs (ColList [c]) None true s = (s1, Ok (cleaned, other)) ->
  exists strs,
    fcols cleaned = [(c, map VStr strs)]
    /\ max_len s1
       = Some (series_max
                 (map (fun x => VInt (Z.of_nat (py_len x))) strs)).
Proof.
  intro H. apply load_csv_inv in H as [t [data [_ [_ [Hm [Hg _]]]]]].
  apply compute_max_len_inv in Hm. simpl in Hm.
  destruct Hm as [ser [lens [Hs [Hl ->]]]].
  apply map_len_ok in Hl as [strs [-> ->]].
  apply getitems_single in Hg as [ser' [Hs' [Hc _]]].
  assert (ser' = map VStr strs) by congruence. subst ser'.
  exists strs. auto.
Qed.

(** X9.  In the four classes that load without a length column, after
    a successful [load] of one requested column every cell of [data] is
    a string no longer than [max_len], and some string has that length;
    when [data] has no row, [max_len] is NaN. *)
Theorem max_len_bounds_data v fs c s s' :
  has_properties v = true ->
  load_method v fs (list_columns [c]) s = (s', Ok tt) ->
  exists d label strs,
    data s' = Some d
    /\ fcols d = [(label, map VStr strs)]
    /\ (strs = [] -> max_len s' = Some VNull)
    /\ (strs <> [] ->
        exists z,
          max_len s' = Some (VInt z)
          /\ (forall x, In x strs -> (Z.of_nat (py_len x) <= z)%Z)
          /\ exists x, In x strs /\ Z.of_nat (py_len x) = z).
Proof.
  intros Hv H.
  assert (Hgoal : exists d label strs,
             data s' = Some d
             /\ fcols d = [(label, map VStr strs)]
             /\ max_len s'
                = Some (series_max
                          (map (fun x => VInt (Z.of_nat (py_len x)))
                             strs))).
  { assert (Hren : forall orig,
               renaming_load orig fs (ColList [c]) s = (s', Ok tt) ->
               exists d label strs,
                 data s' = Some d
                 /\ fcols d = [(label, map VStr strs)]
                 /\ max_len s'
                    = Some (series_max
                              (map (fun x => VInt (Z.of_nat (py_len x)))
                                 strs))).
    { intros orig Hr.
      apply Descriptors.renaming_load_inv in Hr
          as [s1 [cleaned [other [c0 [d [pc [renamed [p Hr]]]]]]]].
      destruct Hr as [H0 [_ [Hd [_ [_ [_ ->]]]]]].
      apply single_column_max_len in H0 as [strs [Hc Hm]].
      destruct (rename_single _ _ _ _ _ Hc Hd) as [Hd' _].
      exists d, (rename_label (dict_of [(c0, "canonical_smiles")]) c), strs.
      simpl. auto. }
    destruct v; try discriminate Hv; simpl in H.
    - apply Descriptors.chembl_load_inv in H as [s1 [cleaned [other [pc [p H]]]]].
      destruct H as [H0 [_ [_ ->]]].
      apply single_column_max_len in H0 as [strs [Hc Hm]].
      exists cleaned, c, strs. simpl. auto.
    - apply (Hren ["exp"]). exact H.
    - apply (Hren ["measured log solubility in mols per litre"]). exact H.
    - apply (Hren ["y"]). exact H. }
  destruct Hgoal as [d [label [strs [Hd [Hc Hm]]]]].
  exists d, label, strs. split; [assumption |]. split; [assumption |].
  destruct (lengths_maximum strs) as [He Hne].
  split.
  - intro E. rewrite Hm. f_equal. now apply He.
  - intro E. destruct (Hne E) as [z [Hz Hb]]. exists z.
    split; [rewrite Hm; now f_equal | exact Hb].
Qed.

Lemma max_len_bounds_data_witness :
  has_properties VMoleculeNetLipophilicityPhyschem = true
  /\ exists s',
      load_method VMoleculeNetLipophilicityPhyschem Samples.disk
        (list_columns ["smiles"])
        (Samples.built VMoleculeNetLipophilicityPhyschem [])
      = (s', Ok tt)
      /\ exists d label strs,
        data s' = Some d
        /\ fcols d = [(label, map VStr strs)]
        /\ (strs = [] -> max_len s' = Some VNull)
        /\ (strs <> [] ->
            exists z,
              max_len s' = Some (VInt z)
              /\ (forall x, In x strs -> (Z.of_nat (py_len x) <= z)%Z)
              /\ exists x, In x strs /\ Z.of_nat (py_len x) = z).
Proof.
  split; [reflexivity |].
  eexists. split.
  - vm_compute. reflexivity.
  - eapply (max_len_bounds_data VMoleculeNetLipophilicityPhyschem Samples.disk
              "smiles" (Samples.built VMoleculeNetLipophilicityPhyschem []));
      [reflexivity | vm_compute; reflexivity].
Defined.

(** *** The values under the renamed property column *)

Lemma assoc_In {A} c (cols : list (string * A)) v :
  assoc c cols = Some v -> In c (map fst cols).
Proof.
  intro H. destruct (in_dec string_dec c (map fst cols)) as [Hi | Hn]; auto.
  apply assoc_none in Hn. congruence.
Qed.

Lemma rename_one_assoc o q (cols : list (string * list value)) ser :
  has_dup (map (rename_label [(o, q)]) (map fst cols)) = false ->
  assoc o cols = Some ser ->
  assoc q (map (fun nc => (rename_label [(o, q)] (fst nc), snd nc)) cols)
  = Some ser.
Proof.
  assert (Hself : rename_label [(o, q)] o = q).
  { unfold rename_label. simpl. now rewrite String.eqb_refl. }
  assert (Hother : forall n, n <> o -> rename_label [(o, q)] n = n).
  { intros n Hn. unfold rename_label. simpl.
    apply String.eqb_neq in Hn. now rewrite Hn. }
  induction cols as [| [n v] t IH]; simpl; intros Hd Ha; [discriminate |].
  apply orb_false_iff in Hd as [Hm Hd].
  destruct (String.eqb_spec o n) as [<- | Hne].
  - rewrite Hself, String.eqb_refl. exact Ha.
  - assert (Hno : n <> o) by congruence.
    rewrite (Hother n Hno) in *.
    destruct (String.eqb_spec q n) as [-> | Hqn]; [| now apply IH].
    exfalso.
    assert (Hin : In n (map (rename_label [(o, n)]) (map fst t))).
    { apply in_map_iff. exists o. split; [exact Hself |].
      eapply assoc_In; eauto. }
    apply string_mem_In in Hin. congruence.
Qed.

(** X10.  In the three MoleculeNet classes with one property column
    [q], a successful [load] puts under [q] the cells that the loaded
    table has under the class's source label, when the table has that
    column and it is not requested as a primary column. *)
Theorem renamed_property_values v fs a s s' o q data ser :
  In v renaming_variants ->
  orig_property_name v = [o] ->
  properties_cols s = Some [q] ->
  load_method v fs a s = (s', Ok tt) ->
  loaded_table fs s = Ok data ->
  getitem o data = Ok ser ->
  ~ In o (as_list (requested v a)) ->
  exists p,
    properties s' = Some p
    /\ fcols p = [(q, ser)]
    /\ index p = index data.
Proof.
  intros Hv Ho Hq H Ht Hg Hn.
  assert (Hr : renaming_load [o] fs (requested v a) s = (s', Ok tt)).
  { rewrite <- Ho. revert H.
    destruct Hv as [<- | [<- | [<- | []]]]; simpl;
      (destruct (arg_length_column a); [discriminate |]);
      unfold requested; now destruct (arg_columns a). }
  apply Descriptors.renaming_load_inv in Hr
      as [s1 [cleaned [other [c0 [d [pc [renamed [p Hr]]]]]]]].
  destruct Hr as [H0 [_ [_ [Hpc [Hrn [Hp ->]]]]]].
  assert (pc = [q]) by congruence. subst pc.
  apply load_csv_inv in H0 as [t [data' [Ht' [Hd' [_ [_ [o' [Hoth E]]]]]]]].
  inversion E; subst o'.
  assert (data' = data).
  { unfold loaded_table in Ht. rewrite Ht' in Ht. simpl in Ht. congruence. }
  subst data'.
  destruct (getitems_ok _ _ _ Hoth) as [Hlabels [Hidx _]].
  assert (Hin : In o (frame_columns other)).
  { rewrite Hlabels. unfold remain_columns. simpl. apply filter_In. split.
    - unfold getitem in Hg. destruct (assoc o (fcols data)) eqn:Ea;
        [| discriminate]. eapply assoc_In; eauto.
    - destruct (string_mem o (as_list (requested v a))) eqn:Em; auto.
      apply string_mem_In in Em. contradiction. }
  assert (Hcell : assoc o (fcols other) = Some ser).
  { pose proof (getitems_cells _ _ _ Hoth o) as Hc.
    rewrite Hlabels in Hin. specialize (Hc Hin).
    unfold getitem in Hc, Hg.
    destruct (assoc o (fcols other)); destruct (assoc o (fcols data));
      congruence. }
  change (dict_of (combine [o] [q])) with [(o, q)] in Hrn.
  unfold rename in Hrn.
  destruct (has_dup _) eqn:Edup; [discriminate |].
  inversion Hrn; subst renamed. clear Hrn.
  rewrite map_map in Edup. simpl in Edup. rewrite <- map_map in Edup.
  pose proof (rename_one_assoc o q (fcols other) ser Edup Hcell) as Hq'.
  apply getitems_single in Hp as [ser' [Hs' [Hfc Hix]]].
  unfold getitem in Hs'. simpl in Hs'. rewrite Hq' in Hs'.
  inversion Hs'; subst ser'.
  exists p. simpl. split; [reflexivity |]. split; [assumption |].
  simpl in Hix. congruence.
Qed.

Lemma renamed_property_values_witness :
  In VMoleculeNetLipophilicityPhyschem renaming_variants
  /\ orig_property_name VMoleculeNetLipophilicityPhyschem = ["exp"]
  /\ properties_cols (Samples.built VMoleculeNetLipophilicityPhyschem [])
     = Some ["logD"]
  /\ ~ In "exp" (as_list (requested VMoleculeNetLipophilicityPhyschem no_args))
  /\ exists s' data ser,
      load_method VMoleculeNetLipophilicityPhyschem Samples.disk no_args
        (Samples.built VMoleculeNetLipophilicityPhyschem []) = (s', Ok tt)
      /\ loaded_table Samples.disk
           (Samples.built VMoleculeNetLipophilicityPhyschem []) = Ok data
      /\ getitem "exp" data = Ok ser
      /\ exists p,
          properties s' = Some p
          /\ fcols p = [("logD", ser)]
          /\ index p = index data.
Proof.
  assert (Hn : ~ In "exp"
                 (as_list (requested VMoleculeNetLipophilicityPhyschem no_args))).
  { simpl. intros [H | []]. discriminate. }
  split; [simpl; auto |]. split; [reflexivity |]. split; [reflexivity |].
  split; [exact Hn |].
  eexists. eexists. eexists.
  split; [vm_compute; reflexivity |].
  split; [vm_compute; reflexivity |].
  split; [vm_compute; reflexivity |].
  eapply (renamed_property_values VMoleculeNetLipophilicityPhyschem Samples.disk
            no_args (Samples.built VMoleculeNetLipophilicityPhyschem [])
            _ "exp" "logD");
    first [exact Hn | vm_compute; reflexivity | simpl; auto].
Defined.

(** *** Selection on an index without repeated labels *)




(** *** The two loads that keep [data] only *)

Lemma loaded_table_labels fs s data path file :
  data_path s = Some path -> fs path = Some file ->
  loaded_table fs s = Ok data ->
  frame_columns data
  = filter (fun x => negb (names (index_col s) x)) (header file).
Proof.
  intros Hp Hf Ht. unfold loaded_table in Ht.
  apply rbind_ok in Ht as [t [Ht Hd]].
  eapply loaded_labels; eauto.
Qed.

(** X12.  On a file whose header has no repeated label,
    [ZINC15TestSplit.load] does to the object exactly what the
    inherited [GenericCSVDataset.load] does, and ends as it does:
    leaving out the companion table changes nothing that [load]
    keeps. *)
Theorem zinc_load_is_generic_load fs columns length_column s :
  (forall path file,
      data_path s = Some path -> fs path = Some file -> NoDup (header file)) ->
  ZINC15TestSplit.load fs columns length_column s
  = GenericCSVDataset.load fs columns length_column s.
Proof.
  intro Hnd. unfold ZINC15TestSplit.load, GenericCSVDataset.load, bind.
  rewrite !load_csv_run.
  destruct (loaded_table fs s) as [data |] eqn:Ht; [| reflexivity].
  destruct (compute_max_len (as_list columns) length_column data s)
    as [s1 [[] | e]]; [| reflexivity].
  destruct (getitems (as_list columns) data) as [cleaned |]; [| reflexivity].
  assert (Hlab : NoDup (frame_columns data)).
  { pose proof Ht as Ht'. unfold loaded_table in Ht'.
    apply rbind_ok in Ht' as [t [Hi _]].
    destruct (indexed_table_inv _ _ _ Hi) as [path [file [Hp [Hf _]]]].
    rewrite (loaded_table_labels _ _ _ _ _ Hp Hf Ht).
    apply NoDup_filter. eapply Hnd; eauto. }
  destruct (remain_columns_select (as_list columns) length_column data Hlab)
    as [o Ho].
  rewrite Ho. reflexivity.
Qed.

Lemma zinc_load_is_generic_load_witness :
  (forall path file,
      data_path MoreSamples.zinc = Some path ->
      MoreSamples.disk path = Some file -> NoDup (header file))
  /\ ZINC15TestSplit.load MoreSamples.disk (ColList ["canonical_smiles"])
       (Some "length") MoreSamples.zinc
     = GenericCSVDataset.load MoreSamples.disk (ColList ["canonical_smiles"])
         (Some "length") MoreSamples.zinc
  /\ snd (ZINC15TestSplit.load MoreSamples.disk (ColList ["canonical_smiles"])
            (Some "length") MoreSamples.zinc) = Ok tt.
Proof.
  assert (H : forall path file,
             data_path MoreSamples.zinc = Some path ->
             MoreSamples.disk path = Some file -> NoDup (header file)).
  { intros path file Hp Hf. vm_compute in Hp. inversion Hp; subst path.
    vm_compute in Hf. inversion Hf; subst file.
    apply has_dup_NoDup. reflexivity. }
  split; [exact H |]. split; [| reflexivity].
  apply (zinc_load_is_generic_load MoreSamples.disk
           (ColList ["canonical_smiles"]) (Some "length") MoreSamples.zinc H).
Defined.

(** *** [load] without an index selection *)

Lemma columns_from_length j hs rs c col :
  assoc c (columns_from j hs rs) = Some col -> length col = length rs.
Proof.
  revert j. induction hs as [| h t IH]; simpl; intros j H; [discriminate |].
  destruct (String.eqb c h); [| eauto].
  inversion H; subst. apply length_map.
Qed.

Lemma load_data_index v fs a s s' :
  load_method v fs a s = (s', Ok tt) ->
  exists s1 cleaned other lc rr d,
    _load_csv fs (requested v a) lc rr s = (s1, Ok (cleaned, other))
    /\ data s' = Some d
    /\ index d = index cleaned /\ index_name d = index_name cleaned.
Proof.
  assert (Hren : forall orig,
             renaming_load orig fs (requested v a) s = (s', Ok tt) ->
             exists s1 cleaned other lc rr d,
               _load_csv fs (requested v a) lc rr s = (s1, Ok (cleaned, other))
               /\ data s' = Some d
               /\ index d = index cleaned /\ index_name d = index_name cleaned).
  { intros orig Hr.
    apply Descriptors.renaming_load_inv in Hr
        as [s1 [cleaned [other [c0 [d [pc [renamed [p Hr]]]]]]]].
    destruct Hr as [H0 [_ [Hd [_ [_ [_ ->]]]]]].
    apply rename_ok in Hd as [_ [Hi Hn]].
    exists s1, cleaned, (Some other), None, true, d. simpl. auto. }
  destruct v; simpl; unfold requested;
    try (destruct (arg_length_column a); [discriminate |]); intro H.
  - apply Descriptors.chembl_load_inv in H as [s1 [cleaned [other [pc [p H]]]]].
    destruct H as [H0 [_ [_ ->]]].
    exists s1, cleaned, (Some other), None, true, cleaned.
    split; [| simpl; auto]. revert H0. now destruct (arg_columns a).
  - apply Hren with (orig := ["exp"]). revert H. unfold requested.
    now destruct (arg_columns a).
  - apply Hren with (orig := ["measured log solubility in mols per litre"]).
    revert H. unfold requested. now destruct (arg_columns a).
  - apply Hren with (orig := ["y"]). revert H. unfold requested.
    now destruct (arg_columns a).
  - apply Descriptors.zinc_load_inv in H as [s1 [cleaned [H0 ->]]].
    exists s1, cleaned, None, (or_default (arg_length_column a) (Some "length")),
      false, cleaned.
    split; [| simpl; auto]. revert H0. now destruct (arg_columns a).
  - apply Descriptors.generic_load_inv in H as [s1 [cleaned [other [H0 ->]]]].
    exists s1, cleaned, other,
      (or_default (arg_length_column a) (Some "length")), true, cleaned.
    split; [| simpl; auto]. revert H0. now destruct (arg_columns a).
Qed.

(** X13.  Without an index selection, a successful [load] of any class
    leaves in [data] one row for every record of the file; with an
    index column the rows are in ascending order of the index, which
    carries the name of that column, and without one the index is
    [0..n-1] under the name ["index"]. *)
Theorem load_keeps_every_record v fs a s s' path file :
  load_method v fs a s = (s', Ok tt) ->
  data_path s = Some path -> fs path = Some file ->
  truthy_list (index_selection s) = None ->
  exists d,
    data s' = Some d
    /\ nrows d = length (records file)
    /\ (forall c, truthy_str (index_col s) = Some c ->
        ascending (index d) /\ index_name d = Some c)
    /\ (truthy_str (index_col s) = None ->
        index d = range_index (length (records file))
        /\ index_name d = Some "index").
Proof.
  intros H Hp Hf Hs.
  apply load_data_index in H
      as [s1 [cleaned [other [lc [rr [d [H0 [Hd [Hi Hn]]]]]]]]].
  apply load_csv_inv in H0 as [t [data [Ht [Hsel [_ [Hg _]]]]]].
  apply getitems_ok in Hg as [_ [Hgi Hgn]].
  apply select_rows_inv in Hsel. rewrite Hs in Hsel. subst data.
  destruct (indexed_table_inv _ _ _ Ht) as [path' [file' [Hp' [Hf' Hx]]]].
  assert (path' = path) by congruence. subst path'.
  assert (file' = file) by congruence. subst file'.
  exists d. split; [assumption |].
  unfold nrows. rewrite Hi, Hgi, Hn, Hgn.
  destruct (truthy_str (index_col s)) as [c |].
  - destruct Hx as [k [Hk ->]].
    destruct (sort_index_sorted k) as [Hsorted Hperm].
    destruct (set_index_ok _ _ _ Hk) as [Hkn [Hkg _]].
    split.
    + rewrite (Permutation_length Hperm).
      unfold getitem in Hkg. destruct (assoc c (fcols (parse file))) eqn:Ea;
        [| discriminate].
      inversion Hkg as [Hl]. rewrite <- Hl.
      unfold parse in Ea. simpl in Ea. now apply columns_from_length in Ea.
    + split; [| discriminate].
      intros c' E. inversion E; subst c'. split; [assumption |].
      now destruct (sort_index_ok k) as [_ ->].
  - subst t. simpl. split.
    + unfold range_index. now rewrite length_map, length_seq.
    + split; [discriminate | auto].
Qed.

Lemma load_keeps_every_record_witness :
  exists s',
    load_method VZINC15TestSplit MoreSamples.disk no_args MoreSamples.zinc
    = (s', Ok tt)
    /\ data_path MoreSamples.zinc
       = Some "/opt/cuchem/data/benchmark_ZINC15_test_split.csv"
    /\ MoreSamples.disk "/opt/cuchem/data/benchmark_ZINC15_test_split.csv"
       = Some MoreSamples.zinc_csv
    /\ truthy_list (index_selection MoreSamples.zinc) = None
    /\ exists d,
        data s' = Some d
        /\ nrows d = length (records MoreSamples.zinc_csv)
        /\ (forall c, truthy_str (index_col MoreSamples.zinc) = Some c ->
            ascending (index d) /\ index_name d = Some c)
        /\ (truthy_str (index_col MoreSamples.zinc) = None ->
            index d = range_index (length (records MoreSamples.zinc_csv))
            /\ index_name d = Some "index").
Proof.
  eexists. split; [vm_compute; reflexivity |].
  split; [reflexivity |]. split; [reflexivity |]. split; [reflexivity |].
  eapply (load_keeps_every_record VZINC15TestSplit MoreSamples.disk no_args
            MoreSamples.zinc);
    first [reflexivity | vm_compute; reflexivity].
Defined.

(** The ZINC15 sample comes out sorted by its [index] column. *)
Example zinc_sample_sorted :
  option_map frame_rows
    (data (fst (load_method VZINC15TestSplit MoreSamples.disk no_args
                  MoreSamples.zinc)))
  = Some [(VInt 1, [VStr "CCCC"]); (VInt 2, [VStr "CCO"])].
Proof. reflexivity. Qed.

(** *** [TABLE_LIST] *)

Lemma construct_hard_coded v env kw :
  construct v env kw
  = (hard_warnings v,
     if path_exists (files env) (hard_path v env)
     then Ok (hard_coded v env)
     else Raise AssertionError).
Proof.
  destruct v;
    unfold construct, ChEMBLApprovedDrugsPhyschem.__init__,
      MoleculeNetLipophilicityPhyschem.__init__,
      MoleculeNetESOLPhyschem.__init__, MoleculeNetFreeSolvPhyschem.__init__,
      ZINC15TestSplit.__init__, ChEMBL20KSamples.__init__,
      assert_exists, hard_path;
    cbn [data_path set_data_path set_index_col set_properties_cols
           set_table_name set_name GenericCSVDataset.__init__
           hard_file hard_warnings];
    match goal with |- context [path_exists ?f ?p] =>
      destruct (path_exists f p) end; reflexivity.
Qed.

(** X14.  [TABLE_LIST] is, in order, the [table_name] of the five
    classes of [__all__] as their constructors set it, whatever the
    keyword arguments, wherever the data files exist. *)
Theorem table_list_matches_table_names env kw :
  (forall v, In v all_variants ->
             path_exists (files env) (hard_path v env) = true) ->
  map (fun v => constructed_table_name v env kw) all_variants
  = map Some TABLE_LIST.
Proof.
  intro H. unfold all_variants. cbn [map]. unfold constructed_table_name.
  rewrite !construct_hard_coded. cbn [snd].
  rewrite !H by (simpl; auto 6). reflexivity.
Qed.

Lemma table_list_matches_table_names_witness :
  let env := {| files := fun _ => Some Samples.esol_csv;
                package_dir := "/opt/cuchem" |} in
  (forall v, In v all_variants ->
             path_exists (files env) (hard_path v env) = true)
  /\ map (fun v => constructed_table_name v env [("name", VStr "mine")])
       all_variants
     = map Some TABLE_LIST.
Proof.
  assert (H : forall v,
             In v all_variants ->
             path_exists (fun _ => Some Samples.esol_csv)
               (hard_path v {| files := fun _ => Some Samples.esol_csv;
                               package_dir := "/opt/cuchem" |}) = true)
    by reflexivity.
  split; [exact H |].
  apply (table_list_matches_table_names
           {| files := fun _ => Some Samples.esol_csv;
              package_dir := "/opt/cuchem" |} [("name", VStr "mine")] H).
Defined.

(** *** Labels after [load], for a list of requested labels *)

(** X15.  After a successful [load] with a list of requested labels,
    [data] carries these labels in the order asked, the first replaced
    by [canonical_smiles] in the three MoleculeNet classes; in the four
    classes that set [properties], it carries exactly [properties_cols],
    in order, on the index of [data]; the other two leave [properties]
    as it was. *)
Theorem list_load_labels v fs c rest s s' :
  load_method v fs (list_columns (c :: rest)) s = (s', Ok tt) ->
  exists d,
    data s' = Some d
    /\ frame_columns d
       = (if is_renaming v
          then "canonical_smiles"
               :: map (rename_label [(c, "canonical_smiles")]) rest
          else c :: rest)
    /\ if has_properties v
       then exists p pc,
           properties s' = Some p /\ properties_cols s' = Some pc
           /\ frame_columns p = pc
           /\ index p = index d /\ index_name p = index_name d
       else properties s' = properties s.
Proof.
  intro H. apply Descriptors.load_labels in H as [d [H1 [H2 H3]]].
  exists d. split; [assumption |]. split; [| assumption].
  rewrite H2. destruct v; simpl; try reflexivity;
    unfold rename_label at 1; simpl; now rewrite String.eqb_refl.
Qed.

Lemma list_load_labels_witness :
  exists s',
    load_method VMoleculeNetLipophilicityPhyschem Samples.disk
      (list_columns ["smiles"; "id"])
      (Samples.built VMoleculeNetLipophilicityPhyschem []) = (s', Ok tt)
    /\ exists d,
      data s' = Some d
      /\ frame_columns d
         = (if is_renaming VMoleculeNetLipophilicityPhyschem
            then "canonical_smiles"
                 :: map (rename_label [("smiles", "canonical_smiles")]) ["id"]
            else ["smiles"; "id"])
      /\ if has_properties VMoleculeNetLipophilicityPhyschem
         then exists p pc,
             properties s' = Some p /\ properties_cols s' = Some pc
             /\ frame_columns p = pc
             /\ index p = index d /\ index_name p = index_name d
         else properties s'
              = properties (Samples.built VMoleculeNetLipophilicityPhyschem []).
Proof.
  eexists. split; [vm_compute; reflexivity |].
  eapply (list_load_labels VMoleculeNetLipophilicityPhyschem Samples.disk
            "smiles" ["id"] (Samples.built VMoleculeNetLipophilicityPhyschem [])).
  vm_compute. reflexivity.
Defined.

(** *** The one attribute [_load_csv] assigns *)

Lemma compute_max_len_state cols lc data s :
  fst (compute_max_len cols lc data s) = s
  \/ exists m, fst (compute_max_len cols lc data s) = set_max_len (Some m) s.
Proof.
  unfold compute_max_len, bind, lift, assign, ret.
  destruct (truthy_str lc).
  - destruct (getitem s0 data); simpl; eauto.
  - destruct cols as [| c [| c' t]]; simpl; auto.
    destruct (getitem c data); simpl; auto.
    destruct (map_len a); simpl; eauto.
Qed.

(** X16.  [_load_csv] has one effect on the object: however it ends,
    the object is as before or differs in [max_len] alone, which then
    holds a value. *)
Theorem load_csv_assigns_only_max_len fs columns length_column rr s :
  fst (_load_csv fs columns length_column rr s) = s
  \/ exists m,
      fst (_load_csv fs columns length_column rr s) = set_max_len (Some m) s.
Proof.
  rewrite load_csv_run.
  destruct (loaded_table fs s) as [data |]; [| now left].
  pose proof (compute_max_len_state (as_list columns) length_column data s) as H.
  destruct (compute_max_len (as_list columns) length_column data s)
    as [s1 [[] | e]]; simpl in H; [| exact H].
  destruct (getitems (as_list columns) data); [| exact H].
  destruct rr; [| exact H].
  destruct (getitems _ data); exact H.
Qed.

(** *** Cells in file order *)

Lemma columns_from_at j pre c post rs :
  ~ In c pre ->
  assoc c (columns_from j (pre ++ c :: post) rs)
  = Some (map (fun r => nth (j + length pre) r VNull) rs).
Proof.
  revert j. induction pre as [| h t IH]; simpl; intros j Hn.
  - rewrite String.eqb_refl, Nat.add_0_r. reflexivity.
  - destruct (String.eqb_spec c h) as [-> | Hne]; [exfalso; auto |].
    rewrite IH by tauto. f_equal.
    apply map_ext. intro r. f_equal. lia.
Qed.

(** X17.  Without index column and index selection, a requested column
    comes back with the cells of the file in the order of its records:
    from every record the field at the position the label first has in
    the header, a missing value where the record is too short. *)
Theorem plain_load_keeps_file_order fs columns length_column rr s s'
  cleaned other path file pre c post :
  _load_csv fs columns length_column rr s = (s', Ok (cleaned, other)) ->
  data_path s = Some path -> fs path = Some file ->
  truthy_str (index_col s) = None ->
  truthy_list (index_selection s) = None ->
  header file = pre ++ c :: post -> ~ In c pre ->
  In c (as_list columns) ->
  getitem c cleaned
  = Ok (map (fun r => nth (length pre) r VNull) (records file)).
Proof.
  intros H Hp Hf Hi Hs Hh Hn Hc.
  apply load_csv_inv in H as [t [data [Ht [Hd [_ [Hg _]]]]]].
  rewrite (getitems_cells _ _ _ Hg c Hc).
  apply select_rows_inv in Hd. rewrite Hs in Hd. subst data.
  destruct (indexed_table_inv _ _ _ Ht) as [path' [file' [Hp' [Hf' Hx]]]].
  assert (path' = path) by congruence. subst path'.
  assert (file' = file) by congruence. subst file'.
  rewrite Hi in Hx. subst t.
  unfold getitem, set_index_name, parse. simpl.
  now rewrite Hh, (columns_from_at 0 pre c post (records file) Hn).
Qed.

Lemma plain_load_keeps_file_order_witness :
  exists s' cleaned other,
    _load_csv Samples.disk (ColList ["exp"]) (Some "id") true Samples.plain
    = (s', Ok (cleaned, other))
    /\ data_path Samples.plain = Some Samples.lipophilicity_path
    /\ Samples.disk Samples.lipophilicity_path = Some Samples.lipophilicity_csv
    /\ truthy_str (index_col Samples.plain) = None
    /\ truthy_list (index_selection Samples.plain) = None
    /\ header Samples.lipophilicity_csv = ["smiles"] ++ "exp" :: ["id"]
    /\ ~ In "exp" ["smiles"]
    /\ In "exp" (as_list (ColList ["exp"]))
    /\ getitem "exp" cleaned
       = Ok (map (fun r => nth (length ["smiles"]) r VNull)
               (records Samples.lipophilicity_csv)).
Proof.
  assert (Hn : ~ In "exp" ["smiles"]).
  { simpl. intros [H | []]. discriminate. }
  eexists. eexists. eexists.
  split; [vm_compute; reflexivity |].
  repeat (split; [first [reflexivity | exact Hn | simpl; auto] |]).
  eapply (plain_load_keeps_file_order Samples.disk (ColList ["exp"]) (Some "id")
            true Samples.plain _ _ _ Samples.lipophilicity_path
            Samples.lipophilicity_csv ["smiles"] "exp" ["id"]);
    first [exact Hn | vm_compute; reflexivity | simpl; auto].
Defined.

End LoaderMore.

(** ** Further properties of the pipeline manager *)

Module ManagerMore.
Import Portal.

Section WithClient.

Context {store Pipeline conf : Type}.
Variable c : DBClient store Pipeline conf.

Ltac run_manager :=
  unfold PipelineManager.create, PipelineManager.update,
    PipelineManager.delete, PipelineManager.fetch_by_id,
    PipelineManager.fetch_all, with_session, call, commit, rollback, log,
    result_of, db_after, events, commits;
  simpl.

(** X18.  [create], [update] and [delete] are all-or-nothing: when
    the call raises, whatever the error and wherever it came from,
    the database is as it was before the call. *)
Theorem failed_call_changes_nothing :
  (forall ppln db e,
      result_of (PipelineManager.create c ppln db) = Raised e ->
      db_after (PipelineManager.create c ppln db) = db)
  /\ (forall id new_conf db e,
         result_of (PipelineManager.update c id new_conf db) = Raised e ->
         db_after (PipelineManager.update c id new_conf db) = db)
  /\ (forall id db e,
         result_of (PipelineManager.delete c id db) = Raised e ->
         db_after (PipelineManager.delete c id db) = db).
Proof.
  split; [| split].
  - intros ppln db e. run_manager.
    destruct (insert c ppln db) as [w [r | e']]; simpl; auto.
    destruct (integrity c w); simpl; [auto | discriminate].
  - intros id new_conf db e. run_manager.
    destruct (update_record c id new_conf db) as [w [r | [m | m]]]; simpl; auto.
    destruct (integrity c w) as [[m | m] |]; simpl; [auto | auto | discriminate].
  - intros id db e. run_manager.
    destruct (delete c id db) as [w [r | e']]; simpl; auto.
    destruct (integrity c w); simpl; [auto | discriminate].
Qed.

(** X19.  A rollback is made exactly when [update] raises an
    integrity error; an [update] that raises anything else, and every
    other call of the manager, closes the session without one. *)
Theorem rollback_only_for_integrity_error :
  (forall id new_conf db,
      In EvRollback (events (PipelineManager.update c id new_conf db))
      <-> exists m,
          result_of (PipelineManager.update c id new_conf db)
          = Raised (IntegrityError m))
  /\ (forall ppln db,
         ~ In EvRollback (events (PipelineManager.create c ppln db)))
  /\ (forall id db,
         ~ In EvRollback (events (PipelineManager.delete c id db)))
  /\ (forall id db,
         ~ In EvRollback (events (PipelineManager.fetch_by_id c id db)))
  /\ (forall start n db,
         ~ In EvRollback (events (PipelineManager.fetch_all c start n db))).
Proof.
  repeat split.
  - run_manager.
    destruct (update_record c id new_conf db) as [w [r | [m | m]]]; simpl.
    + destruct (integrity c w) as [[m | m] |]; simpl; intro H.
      * eauto.
      * repeat destruct H as [H | H]; discriminate || contradiction.
      * repeat destruct H as [H | H]; discriminate || contradiction.
    + eauto.
    + intro H. repeat destruct H as [H | H]; discriminate || contradiction.
  - run_manager.
    destruct (update_record c id new_conf db) as [w [r | [m | m]]]; simpl.
    + destruct (integrity c w) as [[m | m] |]; simpl; intros [m' H];
        try discriminate; auto 6.
    + intros _. auto 6.
    + intros [m' H]. discriminate.
  - intros ppln db. run_manager.
    destruct (insert c ppln db) as [w [r | e]]; simpl.
    + destruct (integrity c w); simpl; intro H;
        repeat destruct H as [H | H]; discriminate || contradiction.
    + intro H. repeat destruct H as [H | H]; discriminate || contradiction.
  - intros id db. run_manager.
    destruct (delete c id db) as [w [r | e]]; simpl.
    + destruct (integrity c w); simpl; intro H;
        repeat destruct H as [H | H]; discriminate || contradiction.
    + intro H. repeat destruct H as [H | H]; discriminate || contradiction.
  - intros id db. run_manager. intro H.
    repeat destruct H as [H | H]; discriminate || contradiction.
  - intros start n db. run_manager. intro H.
    repeat destruct H as [H | H]; discriminate || contradiction.
Qed.

(** X20.  [create], [update] and [delete] have committed exactly when
    they return: no call commits and then raises, none returns
    without a commit, and none commits more than once. *)
Theorem commit_exactly_on_return :
  (forall ppln db,
      (commits (events (PipelineManager.create c ppln db)) = true
       <-> exists r, result_of (PipelineManager.create c ppln db) = Return r)
      /\ SpecMore.count_event EvCommit
           (events (PipelineManager.create c ppln db)) <= 1)
  /\ (forall id new_conf db,
         (commits (events (PipelineManager.update c id new_conf db)) = true
          <-> exists r,
              result_of (PipelineManager.update c id new_conf db) = Return r)
         /\ SpecMore.count_event EvCommit
              (events (PipelineManager.update c id new_conf db)) <= 1)
  /\ (forall id db,
         (commits (events (PipelineManager.delete c id db)) = true
          <-> exists r, result_of (PipelineManager.delete c id db) = Return r)
         /\ SpecMore.count_event EvCommit
              (events (PipelineManager.delete c id db)) <= 1).
Proof.
  split; [| split].
  - intros ppln db. unfold SpecMore.count_event. run_manager.
    destruct (insert c ppln db) as [w [r | e]]; simpl.
    + destruct (integrity c w); simpl;
        (split; [split; [discriminate || eauto | intros [r' H];
                                                discriminate || reflexivity]
                | lia]).
    + split; [split; [discriminate | intros [r' H]; discriminate] | lia].
  - intros id new_conf db. unfold SpecMore.count_event. run_manager.
    destruct (update_record c id new_conf db) as [w [r | [m | m]]]; simpl.
    + destruct (integrity c w) as [[m | m] |]; simpl;
        (split; [split; [discriminate || eauto | intros [r' H];
                                                discriminate || reflexivity]
                | lia]).
    + split; [split; [discriminate | intros [r' H]; discriminate] | lia].
    + split; [split; [discriminate | intros [r' H]; discriminate] | lia].
  - intros id db. unfold SpecMore.count_event. run_manager.
    destruct (delete c id db) as [w [r | e]]; simpl.
    + destruct (integrity c w); simpl;
        (split; [split; [discriminate || eauto | intros [r' H];
                                                discriminate || reflexivity]
                | lia]).
    + split; [split; [discriminate | intros [r' H]; discriminate] | lia].
Qed.

End WithClient.

Lemma failed_call_changes_nothing_witness :
  result_of (PipelineManager.update Sample.client 7 "conf-z" Sample.db0)
  = Raised (OtherError "no such pipeline")
  /\ db_after (PipelineManager.update Sample.client 7 "conf-z" Sample.db0)
     = Sample.db0.
Proof.
  split; [reflexivity |].
  destruct (failed_call_changes_nothing Sample.client) as [_ [H _]].
  apply (H 7%Z "conf-z" Sample.db0 (OtherError "no such pipeline")).
  reflexivity.
Defined.

Lemma rollback_only_for_integrity_error_witness :
  (exists m,
      result_of (PipelineManager.update Sample.client 1 "conf-b" Sample.db0)
      = Raised (IntegrityError m))
  /\ In EvRollback
       (events (PipelineManager.update Sample.client 1 "conf-b" Sample.db0))
  /\ ~ In EvRollback
         (events (PipelineManager.update Sample.client 7 "conf-z" Sample.db0)).
Proof.
  destruct (rollback_only_for_integrity_error Sample.client) as [H _].
  assert (Hm : exists m,
             result_of (PipelineManager.update Sample.client 1 "conf-b"
                          Sample.db0) = Raised (IntegrityError m))
    by (eexists; reflexivity).
  split; [exact Hm |]. split.
  - apply (proj2 (H 1%Z "conf-b" Sample.db0)). exact Hm.
  - intro Hin. apply (proj1 (H 7%Z "conf-z" Sample.db0)) in Hin.
    destruct Hin as [m Hin]. discriminate Hin.
Defined.

Lemma commit_exactly_on_return_witness :
  commits (events (PipelineManager.delete Sample.client 2 Sample.db0)) = true
  /\ (exists r,
         result_of (PipelineManager.delete Sample.client 2 Sample.db0) = Return r)
  /\ db_after (PipelineManager.delete Sample.client 2 Sample.db0)
     = [(1%Z, "conf-a")].
Proof.
  split; [reflexivity |]. split; [| reflexivity].
  destruct (commit_exactly_on_return Sample.client) as [_ [_ H]].
  destruct (H 2%Z Sample.db0) as [[H1 _] _].
  apply H1. reflexivity.
Defined.

End ManagerMore.

(** ** Repeated loads *)

Module Repeat.
Import DF Datasets GenericCSVDataset Spec SpecLoad SpecMore DFFacts LoaderFacts.

(** [len] on one-byte characters is the number of bytes. *)
Lemma py_len_ascii s : is_ascii s = true -> py_len s = String.length s.
Proof.
  induction s as [| a t IH]; simpl; [reflexivity |].
  destruct a as [b0 b1 b2 b3 b4 b5 b6 b7]. simpl.
  intro H. apply andb_true_iff in H as [H7 Ht].
  destruct b7; [discriminate |]. simpl. now rewrite IH.
Qed.

(** A character of two bytes counts once, in [len] and in [max_len]. *)
Example py_len_counts_characters :
  String.length MoreSamples.c_e_acute = 3
  /\ py_len MoreSamples.c_e_acute = 2
  /\ max_len (fst (_load_csv MoreSamples.disk (ColList ["smiles"]) None true
                     MoreSamples.on_accent)) = Some (VInt 2).
Proof. repeat split. Qed.

Lemma load_csv_max_len_state fs cols lc rr s s1 r :
  _load_csv fs cols lc rr s = (s1, Ok r) ->
  match truthy_str lc with
  | Some _ => exists m, max_len s1 = Some m
  | None =>
      match as_list cols with
      | [_] => exists m, max_len s1 = Some m
      | _ => max_len s1 = max_len s
      end
  end.
Proof.
  destruct r as [cleaned other]. intro H.
  apply load_csv_inv in H as [t [data [_ [_ [Hm _]]]]].
  apply compute_max_len_inv in Hm.
  destruct (truthy_str lc).
  - destruct Hm as [ser [_ ->]]. simpl. eauto.
  - destruct (as_list cols) as [| c [| c' rest]].
    + now subst.
    + destruct Hm as [ser [lens [_ [_ ->]]]]. simpl. eauto.
    + now subst.
Qed.

Lemma load_runs_load_csv v fs a s s' :
  load_method v fs a s = (s', Ok tt) ->
  exists s1 r rr,
    _load_csv fs (requested v a) (length_arg v a) rr s = (s1, Ok r)
    /\ max_len s' = max_len s1.
Proof.
  assert (Hren : forall orig,
             renaming_load orig fs (requested v a) s = (s', Ok tt) ->
             exists s1 r rr,
               _load_csv fs (requested v a) None rr s = (s1, Ok r)
               /\ max_len s' = max_len s1).
  { intros orig Hr.
    apply Descriptors.renaming_load_inv in Hr
        as [s1 [cleaned [other [c0 [d [pc [renamed [p Hr]]]]]]]].
    destruct Hr as [H0 [_ [_ [_ [_ [_ ->]]]]]].
    exists s1, (cleaned, Some other), true. auto. }
  destruct v; simpl; unfold requested, length_arg;
    try (destruct (arg_length_column a); [discriminate |]); intro H.
  - apply Descriptors.chembl_load_inv in H as [s1 [cleaned [other [pc [p H]]]]].
    destruct H as [H0 [_ [_ ->]]].
    exists s1, (cleaned, Some other), true.
    split; [| reflexivity]. revert H0. now destruct (arg_columns a).
  - apply Hren with (orig := ["exp"]). revert H. unfold requested.
    now destruct (arg_columns a).
  - apply Hren with (orig := ["measured log solubility in mols per litre"]).
    revert H. unfold requested. now destruct (arg_columns a).
  - apply Hren with (orig := ["y"]). revert H. unfold requested.
    now destruct (arg_columns a).
  - apply Descriptors.zinc_load_inv in H as [s1 [cleaned [H0 ->]]].
    exists s1, (cleaned, None), false.
    split; [| reflexivity]. revert H0. unfold or_default.
    now destruct (arg_columns a), (arg_length_column a).
  - apply Descriptors.generic_load_inv in H as [s1 [cleaned [other [H0 ->]]]].
    exists s1, (cleaned, other), true.
    split; [| reflexivity]. revert H0. unfold or_default.
    now destruct (arg_columns a), (arg_length_column a).
Qed.

Lemma load_max_len v fs a s s' :
  load_method v fs a s = (s', Ok tt) ->
  if assigns_max_len v a
  then exists m, max_len s' = Some m
  else max_len s' = max_len s.
Proof.
  intro H. apply load_runs_load_csv in H as [s1 [r [rr [H0 ->]]]].
  apply load_csv_max_len_state in H0. unfold assigns_max_len.
  destruct (truthy_str (length_arg v a)); [exact H0 |].
  destruct (as_list (requested v a)) as [| c [| c' rest]]; exact H0.
Qed.

(** Against C9 as it is worded: a call does not replace what it does
    not assign.  After [load()], a [load] of two columns keeps the
    [max_len] of the first call, where the same call on the new object
    leaves none; and the [load()] of the ZINC15 class returns with
    [properties] as it was. *)
Lemma max_len_carries_over :
  let obj := Samples.built VMoleculeNetLipophilicityPhyschem [] in
  let first := fst (load_method VMoleculeNetLipophilicityPhyschem Samples.disk
                      no_args obj) in
  let after := load_method VMoleculeNetLipophilicityPhyschem Samples.disk
                 MoreSamples.two_columns first in
  let alone := load_method VMoleculeNetLipophilicityPhyschem Samples.disk
                 MoreSamples.two_columns obj in
  let zinc := load_method VZINC15TestSplit MoreSamples.disk no_args
                (set_properties (data first) MoreSamples.zinc) in
  snd after = Ok tt /\ max_len (fst after) = Some (VInt 4)
  /\ snd alone = Ok tt /\ max_len (fst alone) = None
  /\ max_len (fst after) <> max_len (fst alone)
  /\ snd zinc = Ok tt /\ properties (fst zinc) = data first
  /\ properties (fst zinc) <> None.
Proof.
  vm_compute. repeat split; discriminate.
Qed.

(** C9, as the code has it.  A [load] that succeeds, called again with
    the same arguments, succeeds again and leaves the object as it is.
    What it assigns, it assigns anew from the configuration and the
    file: on every object of the same configuration, whatever that
    object had loaded, the call succeeds and leaves the same [data],
    the same [properties] in the four classes that set them, and the
    same [max_len] when a length column or a single column is asked.
    What it does not assign stays: [properties] in the two other
    classes, and [max_len] with several columns and no length column,
    are after the call what they were before. *)
Theorem load_assigns_anew v fs a s s' :
  load_method v fs a s = (s', Ok tt) ->
  load_method v fs a s' = (s', Ok tt)
  /\ (forall t, same_configuration t s -> snd (load_method v fs a t) = Ok tt)
  /\ (exists d,
        data s' = Some d
        /\ forall t, same_configuration t s ->
                     data (fst (load_method v fs a t)) = Some d)
  /\ (if has_properties v
      then exists p,
          properties s' = Some p
          /\ forall t, same_configuration t s ->
                       properties (fst (load_method v fs a t)) = Some p
      else forall t, same_configuration t s ->
                     properties (fst (load_method v fs a t)) = properties t)
  /\ (if assigns_max_len v a
      then exists m,
          max_len s' = Some m
          /\ forall t, same_configuration t s ->
                       max_len (fst (load_method v fs a t)) = Some m
      else forall t, same_configuration t s ->
                     max_len (fst (load_method v fs a t)) = max_len t).
Proof.
  intro H.
  destruct (cd_load_method v fs a s) as [Es _].
  rewrite H in Es.
  destruct (load_method v fs a (blank s)) as [u r] eqn:Hb.
  simpl in Es. inversion Es as [[Hs' Hr]]. subst r. clear Es. subst s'.
  assert (Ht : forall t, same_configuration t s ->
                         load_method v fs a t = (overlay u t, Ok tt)).
  { intros t Hc. destruct (cd_load_method v fs a t) as [Et _].
    unfold same_configuration in Hc. rewrite Hc, Hb in Et. exact Et. }
  destruct (Descriptors.load_labels _ _ _ _ _ Hb) as [d [Hd [_ Hp]]].
  pose proof (load_max_len _ _ _ _ _ Hb) as Hm.
  split.
  { pose proof (cd_twice (load_method v fs a) s (cd_load_method v fs a)) as Hc.
    rewrite H in Hc. exact Hc. }
  split; [intros t Hc; now rewrite (Ht t Hc) |].
  split.
  { exists d. split; [simpl; now rewrite Hd |].
    intros t Hc. rewrite (Ht t Hc). simpl. now rewrite Hd. }
  split.
  - destruct (has_properties v).
    + destruct Hp as [p [pc [Hp _]]]. exists p.
      split; [simpl; now rewrite Hp |].
      intros t Hc. rewrite (Ht t Hc). simpl. now rewrite Hp.
    + intros t Hc. rewrite (Ht t Hc). simpl. now rewrite Hp.
  - destruct (assigns_max_len v a).
    + destruct Hm as [m Hm]. exists m.
      split; [simpl; now rewrite Hm |].
      intros t Hc. rewrite (Ht t Hc). simpl. now rewrite Hm.
    + intros t Hc. rewrite (Ht t Hc). simpl. now rewrite Hm.
Qed.

Lemma load_assigns_anew_witness :
  let v := VMoleculeNetLipophilicityPhyschem in
  let s := Samples.built VMoleculeNetLipophilicityPhyschem [] in
  exists s',
    load_method v Samples.disk no_args s = (s', Ok tt)
    /\ load_method v Samples.disk no_args s' = (s', Ok tt)
    /\ (forall t, same_configuration t s ->
                  snd (load_method v Samples.disk no_args t) = Ok tt)
    /\ (exists d,
          data s' = Some d
          /\ forall t, same_configuration t s ->
                       data (fst (load_method v Samples.disk no_args t)) = Some d)
    /\ (if has_properties v
        then exists p,
            properties s' = Some p
            /\ forall t, same_configuration t s ->
                         properties (fst (load_method v Samples.disk no_args t))
                         = Some p
        else forall t, same_configuration t s ->
                       properties (fst (load_method v Samples.disk no_args t))
                       = properties t)
    /\ (if assigns_max_len v no_args
        then exists m,
            max_len s' = Some m
            /\ forall t, same_configuration t s ->
                         max_len (fst (load_method v Samples.disk no_args t))
                         = Some m
        else forall t, same_configuration t s ->
                       max_len (fst (load_method v Samples.disk no_args t))
                       = max_len t).
Proof.
  eexists. split; [vm_compute; reflexivity |].
  eapply (load_assigns_anew VMoleculeNetLipophilicityPhyschem Samples.disk
            no_args (Samples.built VMoleculeNetLipophilicityPhyschem [])).
  vm_compute. reflexivity.
Defined.

End Repeat.
